(** * RemindMeBot: a shallow embedding of [remindme_bot.py]

    The bot keeps three SQLite tables (reminders, per-channel and per-user
    timezone settings), an in-memory queue of outbound text fragments, and two
    endless coroutines: [scheduler], which polls the reminder table and fires
    what is due, and [queue_worker], which drains the queue into batched
    sends.

    Conventions of the embedding:
    - Python text is a [string], the bytes of its UTF-8 form.  [str.lower]
      and the regular expression class [\d] are modelled on ASCII text
      ([isascii]), where they act byte by byte; Python also lowercases the
      letters and takes for [\d] the decimal digits of other scripts, so
      what is stated about a text that is refused as a duration is stated
      for ASCII text.
    - Python integers are [Z]; [int] refuses a text of more than 4300
      digits, the interpreter's default limit.
    - A call that can raise returns an [outcome]; statements executed before
      the raise keep their effect on the state that is threaded through.
    - SQLite statements are taken to succeed; each handler commits what it
      wrote before it returns.  Row ids are unbounded integers.
    - Functions of the libraries the bot calls and whose result depends on
      data outside the program (the timezone database, the ISO-8601 reader of
      dateutil) are fields of a class, so that every statement holds for any
      implementation of them; a reference instance is given for evaluation.
      Two of them are modelled where they return: [gettz], which raises on
      an absolute path to a file that is no timezone file, and [astimezone],
      which raises when the local time leaves the years 1 to 9999. *)

From Stdlib Require Import ZArith Lia Ascii String List.
From stdpp Require Import gmap strings list sorting pretty.

Local Open Scope string_scope.
Local Open Scope Z_scope.
Local Open Scope list_scope.

(** ** Outcomes of calls that may raise *)

Inductive exn : Type :=
  | OverflowError
  | ValueError
  | TypeError
  | Exception (msg : string).

Inductive outcome (A : Type) : Type :=
  | Ret (a : A)
  | Raise (e : exn).
Arguments Ret {A} a.
Arguments Raise {A} e.

#[global] Instance outcome_ret : MRet outcome := fun _ a => Ret a.
#[global] Instance outcome_bind : MBind outcome := fun _ _ k m =>
  match m with
  | Ret a => k a
  | Raise e => Raise e
  end.

(** ** Text *)

Definition NEWLINE : string := String "010"%char EmptyString.

Definition is_digit (c : ascii) : bool :=
  (48 <=? nat_of_ascii c)%nat && (nat_of_ascii c <=? 57)%nat.

Definition digit_val (c : ascii) : Z := Z.of_nat (nat_of_ascii c) - 48.

Definition digit_char (d : Z) : ascii := ascii_of_nat (Z.to_nat (48 + d)).

Definition lower_char (c : ascii) : ascii :=
  if (65 <=? nat_of_ascii c)%nat && (nat_of_ascii c <=? 90)%nat
  then ascii_of_nat (nat_of_ascii c + 32)
  else c.

Definition upper_char (c : ascii) : ascii :=
  if (97 <=? nat_of_ascii c)%nat && (nat_of_ascii c <=? 122)%nat
  then ascii_of_nat (nat_of_ascii c - 32)
  else c.

(** [str.lower] and [str.upper] *)
Fixpoint lower (s : string) : string :=
  match s with
  | EmptyString => EmptyString
  | String c s' => String (lower_char c) (lower s')
  end.

Fixpoint upper (s : string) : string :=
  match s with
  | EmptyString => EmptyString
  | String c s' => String (upper_char c) (upper s')
  end.

(** [str.isascii] *)
Definition isascii (s : string) : bool :=
  forallb (fun c => (nat_of_ascii c <? 128)%nat) (list_ascii_of_string s).

(** The value of a run of decimal digits, most significant first. *)
Fixpoint int_of_digits_from (acc : Z) (s : string) : Z :=
  match s with
  | EmptyString => acc
  | String c s' => int_of_digits_from (10 * acc + digit_val c) s'
  end.

Definition int_of_digits (s : string) : Z := int_of_digits_from 0 s.

(** [int(s)] on a run of decimal digits: the conversion raises ValueError
    when the text has more than [sys.int_max_str_digits] digits (4300 unless
    configured otherwise), leading zeros included. *)
Definition MAX_STR_DIGITS : Z := 4300.

Definition int_of_text (s : string) : outcome Z :=
  if MAX_STR_DIGITS <? Z.of_nat (String.length s)
  then Raise ValueError
  else Ret (int_of_digits s).

Fixpoint all_digits (s : string) : bool :=
  match s with
  | EmptyString => true
  | String c s' => is_digit c && all_digits s'
  end.

(** The longest prefix of digits, and what follows it. *)
Fixpoint span_digits (s : string) : string * string :=
  match s with
  | EmptyString => (EmptyString, EmptyString)
  | String c s' =>
      if is_digit c
      then let '(ds, rest) := span_digits s' in (String c ds, rest)
      else (EmptyString, s)
  end.

(** ** timedelta

    A [timedelta] is its normalised value in microseconds.  The constructor
    refuses a value whose day count exceeds 999999999 in magnitude. *)

Definition timedelta : Type := Z.

Definition US_PER_SECOND : Z := 1000000.
Definition US_PER_MINUTE : Z := 60 * US_PER_SECOND.
Definition US_PER_HOUR : Z := 60 * US_PER_MINUTE.
Definition US_PER_DAY : Z := 24 * US_PER_HOUR.
Definition MAX_DELTA_DAYS : Z := 999999999.

Definition mk_timedelta (us : Z) : outcome timedelta :=
  if Z.abs (us / US_PER_DAY) <=? MAX_DELTA_DAYS then Ret us else Raise OverflowError.

Definition timedelta_days (v : Z) : outcome timedelta := mk_timedelta (v * US_PER_DAY).
Definition timedelta_hours (v : Z) : outcome timedelta := mk_timedelta (v * US_PER_HOUR).
Definition timedelta_minutes (v : Z) : outcome timedelta := mk_timedelta (v * US_PER_MINUTE).
Definition timedelta_seconds (v : Z) : outcome timedelta := mk_timedelta (v * US_PER_SECOND).

(** Truth value of a timedelta: false exactly for the zero duration. *)
Definition timedelta_bool (d : timedelta) : bool := negb (d =? 0).

(** ** parse_simple_time *)

Definition is_unit (c : ascii) : bool :=
  match c with
  | "d"%char | "h"%char | "m"%char | "s"%char => true
  | _ => false
  end.

(** [re.match(r"^(\d+)([dhms])$", s)] on ASCII text: groups 1 and 2 of the
    match, if any.  The digit run is greedy and a unit letter is no digit, so the unit must
    follow the longest digit prefix; [$] matches at the end of the text and
    also just before a final newline. *)
Definition re_match_duration (s : string) : option (string * ascii) :=
  match span_digits s with
  | (EmptyString, _) => None
  | (ds, String u rest) =>
      if is_unit u && (String.eqb rest EmptyString || String.eqb rest NEWLINE)
      then Some (ds, u)
      else None
  | (_, EmptyString) => None
  end.

(** [int] comes first and can raise; the dict literal then builds all four
    durations before it is indexed. *)
Definition parse_simple_time (t : string) : outcome (option timedelta) :=
  match re_match_duration (lower t) with
  | None => Ret None
  | Some (g1, g2) =>
      v ← int_of_text g1;
      d ← timedelta_days v;
      h ← timedelta_hours v;
      m ← timedelta_minutes v;
      s ← timedelta_seconds v;
      Ret (Some (match g2 with
                 | "d"%char => d
                 | "h"%char => h
                 | "m"%char => m
                 | _ => s
                 end))
  end.

(** ** datetime

    Every datetime the bot handles is aware and in UTC; it is the record of
    its calendar fields, as in the datetime module.  The calendar functions
    below are those of the module ([_is_leap], [_days_before_year],
    [_days_in_month], [_days_before_month], [_ymd2ord], [_ord2ymd]). *)

Record datetime : Type := mk_datetime {
  year : Z;
  month : Z;
  day : Z;
  hour : Z;
  minute : Z;
  second : Z;
  microsecond : Z
}.

Definition MAXORDINAL : Z := 3652059.
Definition DI400Y : Z := 146097.
Definition DI100Y : Z := 36524.
Definition DI4Y : Z := 1461.

Definition is_leap (y : Z) : bool :=
  (y mod 4 =? 0) && (negb (y mod 100 =? 0) || (y mod 400 =? 0)).

Definition days_before_year (y : Z) : Z :=
  let y' := y - 1 in y' * 365 + y' / 4 - y' / 100 + y' / 400.

Definition DAYS_IN_MONTH (m : Z) : Z :=
  match m with
  | 1 => 31 | 2 => 28 | 3 => 31 | 4 => 30 | 5 => 31 | 6 => 30
  | 7 => 31 | 8 => 31 | 9 => 30 | 10 => 31 | 11 => 30 | 12 => 31
  | _ => -1
  end.

Definition DAYS_BEFORE_MONTH (m : Z) : Z :=
  match m with
  | 1 => 0 | 2 => 31 | 3 => 59 | 4 => 90 | 5 => 120 | 6 => 151
  | 7 => 181 | 8 => 212 | 9 => 243 | 10 => 273 | 11 => 304 | 12 => 334
  | _ => -1
  end.

Definition days_in_month (y m : Z) : Z :=
  if (m =? 2) && is_leap y then 29 else DAYS_IN_MONTH m.

Definition days_before_month (y m : Z) : Z :=
  DAYS_BEFORE_MONTH m + (if (m >? 2) && is_leap y then 1 else 0).

Definition ymd2ord (y m d : Z) : Z :=
  days_before_year y + days_before_month y m + d.

Definition ord2ymd (n : Z) : Z * Z * Z :=
  let n := n - 1 in
  let n400 := n / DI400Y in
  let n := n mod DI400Y in
  let y := n400 * 400 + 1 in
  let n100 := n / DI100Y in
  let n := n mod DI100Y in
  let n4 := n / DI4Y in
  let n := n mod DI4Y in
  let n1 := n / 365 in
  let n := n mod 365 in
  let y := y + n100 * 100 + n4 * 4 + n1 in
  if (n1 =? 4) || (n100 =? 4) then (y - 1, 12, 31)
  else
    let leapyear := (n1 =? 3) && (negb (n4 =? 24) || (n100 =? 3)) in
    let m := Z.shiftr (n + 50) 5 in
    let preceding :=
      DAYS_BEFORE_MONTH m + (if (m >? 2) && leapyear then 1 else 0) in
    if preceding >? n
    then
      let m := m - 1 in
      let preceding :=
        preceding - (DAYS_IN_MONTH m + (if (m =? 2) && leapyear then 1 else 0)) in
      (y, m, n - preceding + 1)
    else (y, m, n - preceding + 1).

(** The datetime constructor's range checks. *)
Definition valid_datetime (d : datetime) : bool :=
  (1 <=? year d) && (year d <=? 9999) &&
  (1 <=? month d) && (month d <=? 12) &&
  (1 <=? day d) && (day d <=? days_in_month (year d) (month d)) &&
  (0 <=? hour d) && (hour d <? 24) &&
  (0 <=? minute d) && (minute d <? 60) &&
  (0 <=? second d) && (second d <? 60) &&
  (0 <=? microsecond d) && (microsecond d <? 1000000).

(** Microseconds since the start of ordinal day 0: the timedelta that
    [datetime.__add__] builds from [toordinal()] and the time fields. *)
Definition to_micros (d : datetime) : Z :=
  ymd2ord (year d) (month d) (day d) * US_PER_DAY
  + hour d * US_PER_HOUR + minute d * US_PER_MINUTE
  + second d * US_PER_SECOND + microsecond d.

(** [datetime.__add__]: add as timedeltas, split back into days, seconds and
    microseconds, and rebuild the date from the day count. *)
Definition dt_add (d : datetime) (delta : timedelta) : outcome datetime :=
  total ← mk_timedelta (to_micros d + delta);
  let days := total / US_PER_DAY in
  let seconds := (total mod US_PER_DAY) / US_PER_SECOND in
  let us := total mod US_PER_SECOND in
  let h := seconds / 3600 in
  let rem := seconds mod 3600 in
  if (0 <? days) && (days <=? MAXORDINAL)
  then
    let '(y, m, dd) := ord2ymd days in
    Ret (mk_datetime y m dd h (rem / 60) (rem mod 60) us)
  else Raise OverflowError.

(** Comparison of two aware datetimes of the same offset: the tuples of
    fields, compared left to right. *)
Definition dt_fields (d : datetime) : list Z :=
  [year d; month d; day d; hour d; minute d; second d; microsecond d].

Fixpoint lex_compare (a b : list Z) : comparison :=
  match a, b with
  | [], [] => Eq
  | [], _ :: _ => Lt
  | _ :: _, [] => Gt
  | x :: a', y :: b' =>
      match x ?= y with
      | Eq => lex_compare a' b'
      | c => c
      end
  end.

Definition dt_cmp (a b : datetime) : comparison :=
  lex_compare (dt_fields a) (dt_fields b).

Definition dt_le (a b : datetime) : bool :=
  match dt_cmp a b with
  | Gt => false
  | _ => true
  end.

(** [%0wd] of a number below [10^w]. *)
Fixpoint zpad (w : nat) (n : Z) : string :=
  match w with
  | O => EmptyString
  | S w' => String (digit_char (n / 10 ^ Z.of_nat w')) (zpad w' (n mod 10 ^ Z.of_nat w'))
  end.

(** [datetime.isoformat()] of an aware UTC datetime: the fraction is printed
    only when the microsecond field is not zero. *)
Definition iso_fraction (us : Z) : string :=
  if us =? 0 then EmptyString else "." +:+ zpad 6 us.

Definition isoformat (d : datetime) : string :=
  zpad 4 (year d) +:+ "-" +:+ zpad 2 (month d) +:+ "-" +:+ zpad 2 (day d) +:+ "T" +:+
  zpad 2 (hour d) +:+ ":" +:+ zpad 2 (minute d) +:+ ":" +:+ zpad 2 (second d) +:+
  iso_fraction (microsecond d) +:+ "+00:00".

(** ** A reader for the texts [isoformat] writes

    dateutil's [isoparse] reads more ISO-8601 forms than these two; the bot
    only ever stores what [isoformat] wrote. *)

Fixpoint read_digits (w : nat) (acc : Z) (s : string) : option (Z * string) :=
  match w, s with
  | O, _ => Some (acc, s)
  | S w', String c s' =>
      if is_digit c then read_digits w' (10 * acc + digit_val c) s' else None
  | S _, EmptyString => None
  end.

Definition expect (c : ascii) (s : string) : option string :=
  match s with
  | String c' s' => if Ascii.eqb c c' then Some s' else None
  | EmptyString => None
  end.

Definition read_fraction (s : string) : option (Z * string) :=
  match s with
  | String "."%char s' => read_digits 6 0 s'
  | _ => Some (0, s)
  end.

Definition read_utc_datetime (s : string) : option datetime :=
  '(y, s) ← read_digits 4 0 s;
  s ← expect "-" s;
  '(m, s) ← read_digits 2 0 s;
  s ← expect "-" s;
  '(d, s) ← read_digits 2 0 s;
  s ← expect "T" s;
  '(hh, s) ← read_digits 2 0 s;
  s ← expect ":" s;
  '(mm, s) ← read_digits 2 0 s;
  s ← expect ":" s;
  '(ss, s) ← read_digits 2 0 s;
  '(us, s) ← read_fraction s;
  if String.eqb s "+00:00" then Some (mk_datetime y m d hh mm ss us) else None.

Definition isoparse_utc (s : string) : outcome datetime :=
  match read_utc_datetime s with
  | Some d => if valid_datetime d then Ret d else Raise ValueError
  | None => Raise ValueError
  end.

(** ** The libraries the bot calls into

    - [gettz name]: the zone of that name in the timezone database, [None]
      when the name is unknown.  The field stands for the calls that
      return: on an absolute path to a file that is no timezone file
      dateutil raises ValueError, and a handler that reaches such a call
      ends there, without a reply and without having written anything;
    - [tz_UTC]: [dateutil.tz.UTC];
    - [strftime_in tz d]: [d.astimezone(tz).strftime('%Y-%m-%d %H:%M:%S %Z')];
      with [None] for [tz], [astimezone] uses the zone of the machine.  The
      field stands for the calls that return: [astimezone] raises
      OverflowError when the local time falls outside the years 1 to 9999,
      which an offset of less than a day can cause only on the first and
      the last day of the calendar ([clear_of_ends] excludes them);
    - [isoparse s]: the UTC instant the text denotes; it raises where
      dateutil raises, and reads back what [isoformat] wrote. *)
Class Dateutil : Type := {
  tzinfo : Type;
  gettz : string -> option tzinfo;
  tz_UTC : tzinfo;
  strftime_in : option tzinfo -> datetime -> string;
  isoparse : string -> outcome datetime;
  isoparse_isoformat :
    forall d, valid_datetime d = true -> isoparse (isoformat d) = Ret d
}.

(** ** The database *)

Record reminder : Type := mk_reminder {
  channel_id : string;
  user_id : string;
  message : string;
  remind_time : string;
  rrule_str : option string;
  interval_hours : option Z;
  original_tz : string
}.

(** The three tables; [reminders] is keyed by its [id] column, the settings
    tables by their primary keys.  [sequence] is the largest id the
    AUTOINCREMENT column has handed out. *)
Record store : Type := mk_store {
  reminders : gmap Z reminder;
  sequence : Z;
  server_settings : gmap string string;
  user_settings : gmap string string
}.

Definition init_db : store := mk_store ∅ 0 ∅ ∅.

Definition max_rowid (t : gmap Z reminder) : Z :=
  map_fold (fun k _ acc => Z.max k acc) 0 t.

(** [INSERT INTO reminders ...] with an AUTOINCREMENT key: the new id is one
    more than the largest id in the table or ever assigned. *)
Definition insert_reminder (r : reminder) (s : store) : Z * store :=
  let rid := Z.max (sequence s) (max_rowid (reminders s)) + 1 in
  (rid, mk_store (<[rid := r]> (reminders s)) rid (server_settings s) (user_settings s)).

(** [DELETE FROM reminders WHERE id=?] *)
Definition delete_reminder (rid : Z) (s : store) : store :=
  mk_store (delete rid (reminders s)) (sequence s) (server_settings s) (user_settings s).

(** [INSERT OR REPLACE INTO server_settings] and [... user_settings] *)
Definition replace_server_setting (cid tz : string) (s : store) : store :=
  mk_store (reminders s) (sequence s) (<[cid := tz]> (server_settings s)) (user_settings s).

Definition replace_user_setting (uid tz : string) (s : store) : store :=
  mk_store (reminders s) (sequence s) (server_settings s) (<[uid := tz]> (user_settings s)).

(** [SELECT * FROM reminders ORDER BY remind_time ASC]: the column is TEXT
    and is compared byte by byte; rows of equal text come in no promised
    order. *)
Definition time_text_le (a b : Z * reminder) : Prop :=
  String.le (remind_time a.2) (remind_time b.2).

#[global] Instance time_text_le_dec : RelDecision time_text_le.
Proof. intros a b. unfold time_text_le. apply _. Defined.

Definition select_ordered (s : store) : list (Z * reminder) :=
  merge_sort time_text_le (map_to_list (reminders s)).

(** ** The bot *)

Record bot : Type := mk_bot {
  db : store;
  message_queue : list string;
  admin_role_id : string;
  log : list (string * exn)
}.

Definition with_db (b : bot) (s : store) : bot :=
  mk_bot s (message_queue b) (admin_role_id b) (log b).

(** [queue_message] *)
Definition queue_message (text : string) (b : bot) : bot :=
  mk_bot (db b) (message_queue b ++ [text]) (admin_role_id b) (log b).

Definition log_error (tag : string) (e : exn) (b : bot) : bot :=
  mk_bot (db b) (message_queue b) (admin_role_id b) (log b ++ [(tag, e)]).

(** What a command handler sees of its invocation: [str(ctx.channel.id)],
    [str(ctx.author.id)] and the author's [role_ids]. *)
Record context : Type := mk_context {
  ctx_channel : string;
  ctx_author : string;
  ctx_role_ids : list string
}.

Definition REPLY_ADMIN_ONLY : string := "❌ Admin only.".
Definition REPLY_INVALID_TZ : string := "Invalid timezone.".
Definition REPLY_INVALID_TIME : string := "Invalid time format. Example: 10s 5m 2h 1d".

Definition SEND_INTERVAL : Z := 1.
Definition BURST_WINDOW : Z := 2.

Section Handlers.
  Context `{Dateutil}.

(** [get_tz_context]: a fetched row is a non-empty tuple, so [if r:] asks
    whether the row exists. *)
Definition get_tz_context (conn : store) (channel_id user_id : string)
  : option tzinfo * string :=
  match user_settings conn !! user_id with
  | Some name => (gettz name, name)
  | None =>
      match server_settings conn !! channel_id with
      | Some name => (gettz name, name)
      | None => (Some tz_UTC, "UTC")
      end
  end.

Definition reminder_text (rid : Z) (r : reminder) (local : string) : string :=
  "🔔 Reminder #" +:+ pretty rid +:+ " for <@" +:+ user_id r +:+ ">: " +:+
  message r +:+ " (" +:+ local +:+ ")".

(** [send_reminder]: render, enqueue, delete and commit. *)
Definition send_reminder (row : Z * reminder) (b : bot) : outcome bot :=
  let '(rid, r) := row in
  remind_dt ← isoparse (remind_time r);
  let user_tz := default tz_UTC (gettz (original_tz r)) in
  let local := strftime_in (Some user_tz) remind_dt in
  let b := queue_message (reminder_text rid r local) b in
  Ret (with_db b (delete_reminder rid (db b))).

(** The [for] loop of [scheduler] over the fetched rows.  A raise leaves
    the loop; what earlier rows did stays done. *)
Fixpoint scheduler_rows (now : datetime) (rows : list (Z * reminder)) (b : bot)
  : bot * option exn :=
  match rows with
  | [] => (b, None)
  | row :: rest =>
      match isoparse (remind_time row.2) with
      | Raise e => (b, Some e)
      | Ret remind_dt =>
          if dt_le remind_dt now
          then
            match send_reminder row b with
            | Raise e => (b, Some e)
            | Ret b' => scheduler_rows now rest b'
            end
          else scheduler_rows now rest b
      end
  end.

(** One pass through the body of [scheduler]'s [while True]; [now] is what
    [datetime.now(UTC)] returned.  Both branches then sleep five seconds. *)
Definition scheduler_tick (now : datetime) (b : bot) : bot :=
  match scheduler_rows now (select_ordered (db b)) b with
  | (b', None) => b'
  | (b', Some e) => log_error "[Scheduler]" e b'
  end.

(** [settz] *)
Definition settz (ctx : context) (timezone : string) (b : bot) : bot * string :=
  if negb (String.eqb (admin_role_id b) EmptyString)
     && negb (bool_decide (admin_role_id b ∈ ctx_role_ids ctx))
  then (b, REPLY_ADMIN_ONLY)
  else
    match gettz timezone with
    | None => (b, REPLY_INVALID_TZ)
    | Some _ =>
        (with_db b (replace_server_setting (ctx_channel ctx) timezone (db b)),
         "Timezone set to " +:+ timezone)
    end.

(** [mytz] *)
Definition mytz (ctx : context) (timezone : string) (b : bot) : bot * string :=
  match gettz timezone with
  | None => (b, REPLY_INVALID_TZ)
  | Some _ =>
      (with_db b (replace_user_setting (ctx_author ctx) timezone (db b)),
       "Your timezone set to " +:+ timezone)
  end.

(** [remind]; [now] is what [datetime.now(UTC)] returned.  [not delta]
    holds for [None] and for the zero duration.  [parse_simple_time] and the
    addition raise before the INSERT, so such a raise leaves the bot as it
    was.  The local time of the reply is computed after the commit: on the
    first and the last day of the calendar [astimezone] can raise there,
    with the row already stored, which [strftime_in] does not show. *)
Definition remind (ctx : context) (time_str message : string) (now : datetime) (b : bot)
  : outcome (bot * string) :=
  delta ← parse_simple_time time_str;
  match delta with
  | None => Ret (b, REPLY_INVALID_TIME)
  | Some delta =>
      if negb (timedelta_bool delta)
      then Ret (b, REPLY_INVALID_TIME)
      else
        remind_dt ← dt_add now delta;
        let '(tz_obj, tz_name) :=
          get_tz_context (db b) (ctx_channel ctx) (ctx_author ctx) in
        let '(rid, db') :=
          insert_reminder
            (mk_reminder (ctx_channel ctx) (ctx_author ctx) message
                         (isoformat remind_dt) None None tz_name)
            (db b) in
        let local := strftime_in tz_obj remind_dt in
        Ret (with_db b db', "✅ Reminder #" +:+ pretty rid +:+ " set for " +:+ local)
  end.

(** The rows a tick hands to [send_reminder], in the order it does. *)
Fixpoint fired_rows (now : datetime) (rows : list (Z * reminder)) : list (Z * reminder) :=
  match rows with
  | [] => []
  | row :: rest =>
      match isoparse (remind_time row.2) with
      | Raise _ => []
      | Ret remind_dt =>
          if dt_le remind_dt now then row :: fired_rows now rest
          else fired_rows now rest
      end
  end.

Definition dispatched (now : datetime) (b : bot) : list (Z * reminder) :=
  fired_rows now (select_ordered (db b)).

(** The text [send_reminder] enqueues for a row (a row whose time cannot be
    read is never handed to it). *)
Definition delivery_text (row : Z * reminder) : string :=
  match isoparse (remind_time row.2) with
  | Ret remind_dt =>
      reminder_text row.1 row.2
        (strftime_in (Some (default tz_UTC (gettz (original_tz row.2)))) remind_dt)
  | Raise _ => EmptyString
  end.

(** What happens to the bot between two moments: command handlers and
    scheduler ticks, in some order. *)
Inductive op : Type :=
  | OpRemind (ctx : context) (time_str message : string) (now : datetime)
  | OpSettz (ctx : context) (timezone : string)
  | OpMytz (ctx : context) (timezone : string)
  | OpTick (now : datetime).

Definition apply_op (o : op) (b : bot) : bot :=
  match o with
  | OpRemind ctx t m now =>
      match remind ctx t m now b with
      | Ret (b', _) => b'
      | Raise _ => b
      end
  | OpSettz ctx tz => (settz ctx tz b).1
  | OpMytz ctx tz => (mytz ctx tz b).1
  | OpTick now => scheduler_tick now b
  end.

Definition apply_ops (ops : list op) (b : bot) : bot :=
  foldl (fun b o => apply_op o b) b ops.

(** What [send_reminder] does to the bot once the stored time has been
    read. *)
Definition deliver (b : bot) (row : Z * reminder) : bot :=
  let b := queue_message (delivery_text row) b in
  with_db b (delete_reminder row.1 (db b)).

End Handlers.

(** ** The delivery loop *)

Inductive send_result : Type :=
  | SendOk
  | SendRaises (e : exn).

(** The inner [while message_queue:] loop.  [clock k] is what the [k]-th call
    of [datetime.now()] in this pass returns, in microseconds; [start] is the
    reading taken before the loop.  Nothing else runs while it drains. *)
Fixpoint collect (clock : nat -> Z) (start : Z) (k : nat) (q : list string)
  : list string * list string :=
  match q with
  | [] => ([], [])
  | x :: q' =>
      if clock k - start >? BURST_WINDOW * US_PER_SECOND
      then ([x], q')
      else let '(batch, rest) := collect clock start (S k) q' in (x :: batch, rest)
  end.

Definition with_queue (b : bot) (q : list string) : bot :=
  mk_bot (db b) q (admin_role_id b) (log b).

(** One pass through the body of [queue_worker]'s [while True]: the bot
    afterwards, the text handed to [allowed_channel.send] if the pass got
    that far, and the sleep that ends the pass, in microseconds. *)
Definition queue_worker_iter (clock : nat -> Z) (res : send_result) (b : bot)
  : bot * option string * Z :=
  match message_queue b with
  | [] => (b, None, 200000)
  | _ :: _ =>
      let now := clock O in
      let '(batch, rest) := collect clock now 1%nat (message_queue b) in
      let combined := String.concat NEWLINE batch in
      let b := with_queue b rest in
      match res with
      | SendOk => (b, Some combined, SEND_INTERVAL * US_PER_SECOND)
      | SendRaises e => (log_error "[Queue]" e b, Some combined, 2 * US_PER_SECOND)
      end
  end.

(** A run of the delivery loop among its producers.  [Enqueue t text]: some
    coroutine calls [queue_message text] at time [t].  [Pass t clock t_send
    res t_done]: the loop starts a pass at time [t]; if the queue is not
    empty it calls [send] at [t_send], and the call returns or raises at
    [t_done].  [asyncio.sleep d] resumes no earlier than [d] after it was
    called.  [r_calls] lists the [send] calls made so far, each with its
    time. *)
Inductive event : Type :=
  | Enqueue (t : Z) (text : string)
  | Pass (t : Z) (clock : nat -> Z) (t_send : Z) (res : send_result) (t_done : Z).

Record run : Type := mk_run {
  r_bot : bot;
  r_time : Z;
  r_wake : Z;
  r_calls : list (Z * string)
}.

Definition step (ev : event) (r : run) : option run :=
  match ev with
  | Enqueue t text =>
      if r_time r <=? t
      then Some (mk_run (queue_message text (r_bot r)) t (r_wake r) (r_calls r))
      else None
  | Pass t clock t_send res t_done =>
      if (r_time r <=? t) && (r_wake r <=? t) && (t <=? t_send) && (t_send <=? t_done)
      then
        match queue_worker_iter clock res (r_bot r) with
        | (b', None, sleep) => Some (mk_run b' t (t + sleep) (r_calls r))
        | (b', Some text, sleep) =>
            Some (mk_run b' t (t_done + sleep) (r_calls r ++ [(t_send, text)]))
        end
      else None
  end.

Fixpoint execute (evs : list event) (r : run) : option run :=
  match evs with
  | [] => Some r
  | ev :: evs' =>
      match step ev r with
      | Some r' => execute evs' r'
      | None => None
      end
  end.

Definition start_run (b : bot) : run := mk_run b 0 0 [].

(** Consecutive entries of a list of times are at least [gap] apart. *)
Fixpoint spaced (gap : Z) (ts : list Z) : Prop :=
  match ts with
  | t1 :: ((t2 :: _) as rest) => t1 + gap <= t2 /\ spaced gap rest
  | _ => True
  end.

(** ** The vocabulary of the properties *)

Definition is_pass (ev : event) : bool :=
  match ev with
  | Pass _ _ _ _ _ => true
  | Enqueue _ _ => false
  end.

(** What every run of the loop keeps true: the calls made so far are spaced,
    and the loop does not wake before the send interval has passed since the
    last of them. *)
Definition paced (r : run) : Prop :=
  spaced (SEND_INTERVAL * US_PER_SECOND) (r_calls r).*1 /\
  forall tl, last (r_calls r).*1 = Some tl ->
    tl + SEND_INTERVAL * US_PER_SECOND <= r_wake r.

(** Three fragments enqueued within [window] microseconds of one another. *)
Definition burst_of_three (window : Z) (evs : list event) (a b c : string) : Prop :=
  exists ta tb tc,
    filter (fun ev => is_pass ev = false) evs = [Enqueue ta a; Enqueue tb b; Enqueue tc c] /\
    tc - ta <= window /\ ta <= tb /\ tb <= tc.

(** The coalescing property as the specification words it: the fragments
    leave in exactly one call, joined by newlines in the order of arrival. *)
Definition coalesced (evs : list event) (a b c : string) : Prop :=
  forall bot0 r,
    message_queue bot0 = [] ->
    execute evs (start_run bot0) = Some r ->
    message_queue (r_bot r) = [] ->
    (r_calls r).*2 = [String.concat NEWLINE [a; b; c]].

(** One or more digits followed by one of d, h, m, s. *)
Definition integer_and_unit (s : string) : Prop :=
  exists ds u, ds <> EmptyString /\ all_digits ds = true /\ is_unit u = true /\
    s = ds +:+ String u EmptyString.

(** What the pattern matches: the same, or the same before one final
    newline. *)
Definition matches_pattern (s : string) : Prop :=
  exists ds u, ds <> EmptyString /\ all_digits ds = true /\ is_unit u = true /\
    (s = ds +:+ String u EmptyString \/ s = ds +:+ String u NEWLINE).

Definition unit_micros (u : ascii) : Z :=
  match u with
  | "d"%char => US_PER_DAY
  | "h"%char => US_PER_HOUR
  | "m"%char => US_PER_MINUTE
  | _ => US_PER_SECOND
  end.

(** The caller passes the admin check of [settz]. *)
Definition passes_admin_check (ctx : context) (b : bot) : Prop :=
  admin_role_id b = EmptyString \/ admin_role_id b ∈ ctx_role_ids ctx.

(** No id in the table exceeds the AUTOINCREMENT counter. *)
Definition store_ok (s : store) : Prop :=
  map_Forall (fun k _ => k <= sequence s) (reminders s).

(** An id that was handed out and whose row is gone. *)
Definition retired (rid : Z) (s : store) : Prop :=
  reminders s !! rid = None /\ rid <= sequence s /\ store_ok s.

(** Every stored time is what [isoformat] wrote for some UTC datetime:
    what [remind] stores, and all it stores. *)
Definition wf_store (s : store) : Prop :=
  map_Forall (fun _ r => exists d, valid_datetime d = true /\ remind_time r = isoformat d)
             (reminders s).

(** Row [x] is due no later than row [y]. *)
Definition earlier (x y : Z * reminder) : Prop :=
  forall dx dy,
    valid_datetime dx = true -> valid_datetime dy = true ->
    remind_time x.2 = isoformat dx -> remind_time y.2 = isoformat dy ->
    dt_le dx dy = true.

Definition fields_in_range (d : datetime) : Prop :=
  0 <= year d < 10 ^ Z.of_nat 4 /\ 0 <= month d < 10 ^ Z.of_nat 2 /\
  0 <= day d < 10 ^ Z.of_nat 2 /\ 0 <= hour d < 10 ^ Z.of_nat 2 /\
  0 <= minute d < 10 ^ Z.of_nat 2 /\ 0 <= second d < 10 ^ Z.of_nat 2 /\
  0 <= microsecond d < 10 ^ Z.of_nat 6.

(** The month and the day of the month of the [n]-th day of a year, as
    [_ord2ymd] finds them. *)
Definition month_day (leapyear : bool) (n : Z) : Z * Z :=
  let m := Z.shiftr (n + 50) 5 in
  let preceding := DAYS_BEFORE_MONTH m + (if (m >? 2) && leapyear then 1 else 0) in
  if preceding >? n
  then
    let m := m - 1 in
    let preceding :=
      preceding - (DAYS_IN_MONTH m + (if (m =? 2) && leapyear then 1 else 0)) in
    (m, n - preceding + 1)
  else (m, n - preceding + 1).

Definition month_day_ok (leapyear : bool) (n : Z) : bool :=
  let '(m, d) := month_day leapyear n in
  (1 <=? m) && (m <=? 12) && (1 <=? d)
  && (d <=? (if (m =? 2) && leapyear then 29 else DAYS_IN_MONTH m))
  && (DAYS_BEFORE_MONTH m + (if (m >? 2) && leapyear then 1 else 0) + d =? n + 1).

(** The sum falls on a day of the calendar, years 1 to 9999. *)
Definition representable (now : datetime) (delta : timedelta) : Prop :=
  US_PER_DAY <= to_micros now + delta < (MAXORDINAL + 1) * US_PER_DAY.

(** The sum falls on a day of the calendar other than its first and its
    last, so that the local time of any zone less than a day from UTC is on
    the calendar too. *)
Definition clear_of_ends (now : datetime) (delta : timedelta) : Prop :=
  2 * US_PER_DAY <= to_micros now + delta < MAXORDINAL * US_PER_DAY.

(** Row [x] is due at the instant row [y] is, or before. *)
Definition no_later (x y : Z * reminder) : Prop :=
  forall dx dy,
    valid_datetime dx = true -> valid_datetime dy = true ->
    remind_time x.2 = isoformat dx -> remind_time y.2 = isoformat dy ->
    to_micros dx <= to_micros dy.

(** Every stored setting names a zone the timezone database knows. *)
Definition settings_known `{Dateutil} (s : store) : Prop :=
  map_Forall (fun _ name => is_Some (gettz name)) (user_settings s) /\
  map_Forall (fun _ name => is_Some (gettz name)) (server_settings s).

(** A command or tick that is not a [settz] by a holder of the role
    [admin]. *)
Definition by_non_admin (admin : string) (o : op) : Prop :=
  match o with
  | OpSettz ctx _ => admin ∉ ctx_role_ids ctx
  | _ => True
  end.

(** The texts handed to [queue_message] in a timeline, in order. *)
Definition enqueued (evs : list event) : list string :=
  flat_map (fun ev => match ev with
                      | Enqueue _ text => [text]
                      | Pass _ _ _ _ _ => []
                      end) evs.

(** ** Sample data

    A zone of the sample timezone database is its offset from UTC in minutes
    and its abbreviation; the database knows three names. *)

Definition sample_gettz (name : string) : option (Z * string) :=
  if String.eqb name "UTC" then Some (0, "UTC")
  else if String.eqb name "America/New_York" then Some (-300, "EST")
  else if String.eqb name "Europe/Paris" then Some (60, "CET")
  else None.

Definition sample_strftime (tz : option (Z * string)) (d : datetime) : string :=
  let '(offset, abbr) := default (0, "UTC") tz in
  match dt_add d (offset * US_PER_MINUTE) with
  | Ret l =>
      zpad 4 (year l) +:+ "-" +:+ zpad 2 (month l) +:+ "-" +:+ zpad 2 (day l) +:+ " " +:+
      zpad 2 (hour l) +:+ ":" +:+ zpad 2 (minute l) +:+ ":" +:+ zpad 2 (second l) +:+
      " " +:+ abbr
  | Raise _ => EmptyString
  end.

Definition dt_2024 : datetime := mk_datetime 2024 2 28 23 59 55 0.

Definition fresh_bot : bot := mk_bot init_db [] EmptyString [].

(** A steady clock: the [k]-th reading is [k] microseconds after [t]. *)
Definition steady (t : Z) : nat -> Z := fun k => t + Z.of_nat k.

(** The loop wakes 100 ms after the first fragment arrived, finds it alone
    and sends it; the other two, arrived 300 ms and 500 ms after the first,
    leave together in the next pass. *)
Definition split_burst : list event :=
  [ Enqueue 0 "a";
    Pass 100000 (steady 100000) 100000 SendOk 150000;
    Enqueue 300000 "b";
    Enqueue 500000 "c";
    Pass 1150000 (steady 1150000) 1150000 SendOk 1200000 ].

(** The queue holds four fragments; the clock jumps past the burst window
    after the second is taken, and the send of the first two raises. *)
Definition jumpy (k : nat) : Z :=
  match k with
  | O | 1%nat => 0
  | _ => 2500000
  end.

Definition loaded_run : run :=
  mk_run (mk_bot init_db ["a"; "b"; "c"; "d"] EmptyString []) 0 0 [].

(** All three fragments are in the queue when the loop collects, but the
    wall clock is set forward while it does (a clock correction, a change of
    daylight saving time: [datetime.now()] is local time). *)
Definition jump_burst : list event :=
  [ Enqueue 0 "a";
    Enqueue 300000 "b";
    Enqueue 500000 "c";
    Pass 600000 jumpy 600000 SendOk 650000;
    Pass 1650000 (steady 1650000) 1650000 SendOk 1700000 ].

(** A number written with more digits than [int] converts: 4299 zeros
    before "10". *)
Fixpoint zeros (n : nat) : string :=
  match n with
  | O => EmptyString
  | S n' => String "0"%char (zeros n')
  end.

Definition padded_ten : string := zeros 4299 +:+ "10".

Definition alice : context := mk_context "chan-1" "alice" ["members"].
Definition guarded_bot : bot := mk_bot init_db [] "admins" [].
Definition noon : datetime := mk_datetime 2026 11 4 12 0 0 0.

Definition sample_settings : store :=
  mk_store ∅ 0 {[ "chan-1" := "UTC" ]} {[ "alice" := "America/New_York" ]}.

Definition stale_settings : store :=
  mk_store ∅ 0 {[ "chan-1" := "Mars/Phobos" ]} {[ "alice" := "Mars/Phobos" ]}.

(** A database with two reminders, one due at 11:00 and one at 13:00. *)
Definition tea : reminder :=
  mk_reminder "chan-1" "alice" "tea" "2026-11-04T11:00:00+00:00" None None "UTC".
Definition walk : reminder :=
  mk_reminder "chan-1" "bob" "walk" "2026-11-04T13:00:00+00:00" None None "Europe/Paris".

Definition two_reminders : bot :=
  mk_bot (mk_store (<[1 := tea]> (<[2 := walk]> ∅)) 2 ∅ ∅) [] EmptyString [].

(** A table with a row whose time was never written: it sorts before the
    two reminders. *)
Definition unset : reminder :=
  mk_reminder "chan-1" "carol" "call" "(unset)" None None "UTC".

Definition with_unset : bot :=
  mk_bot (mk_store (<[1 := tea]> (<[2 := walk]> (<[3 := unset]> ∅))) 3 ∅ ∅) [] EmptyString [].

Definition afternoon : datetime := mk_datetime 2026 11 4 14 0 0 0.

(** * Properties *)

(** ** The model at work *)

Example parse_10s : parse_simple_time "10s" = Ret (Some 10000000).
Proof. reflexivity. Qed.
Example parse_10S : parse_simple_time "10S" = Ret (Some 10000000).
Proof. reflexivity. Qed.
Example parse_5M : parse_simple_time "5M" = Ret (Some 300000000).
Proof. reflexivity. Qed.
Example parse_10x : parse_simple_time "10x" = Ret None.
Proof. reflexivity. Qed.
Example parse_0s : parse_simple_time "0s" = Ret (Some 0).
Proof. reflexivity. Qed.
Example parse_big : parse_simple_time "1000000000s" = Raise OverflowError.
Proof. reflexivity. Qed.

Example isoformat_2024 : isoformat dt_2024 = "2024-02-28T23:59:55+00:00".
Proof. reflexivity. Qed.
Example add_10s :
  dt_add dt_2024 10000000 = Ret (mk_datetime 2024 2 29 0 0 5 0).
Proof. reflexivity. Qed.
Example add_huge : dt_add dt_2024 (3000000 * US_PER_DAY) = Raise OverflowError.
Proof. reflexivity. Qed.
Example ord_roundtrip : ord2ymd (ymd2ord 2024 12 31) = (2024, 12, 31).
Proof. reflexivity. Qed.
Example ord_first : ord2ymd 1 = (1, 1, 1) /\ ord2ymd MAXORDINAL = (9999, 12, 31).
Proof. split; reflexivity. Qed.

Example isoparse_2024 : isoparse_utc "2024-02-28T23:59:55+00:00" = Ret dt_2024.
Proof. reflexivity. Qed.
Example isoparse_frac :
  isoparse_utc "2024-02-28T23:59:55.000250+00:00" = Ret (mk_datetime 2024 2 28 23 59 55 250).
Proof. reflexivity. Qed.
Example isoparse_bad : isoparse_utc "tomorrow" = Raise ValueError.
Proof. reflexivity. Qed.

(** ** Digits and padded numbers *)

Lemma digit_char_spec d :
  0 <= d <= 9 -> is_digit (digit_char d) = true /\ digit_val (digit_char d) = d.
Proof.
  intros Hd.
  assert (Hc : d = 0 \/ d = 1 \/ d = 2 \/ d = 3 \/ d = 4 \/ d = 5 \/ d = 6 \/ d = 7
               \/ d = 8 \/ d = 9) by lia.
  repeat destruct Hc as [-> | Hc]; try subst d; split; reflexivity.
Qed.

Lemma digit_char_compare a b :
  0 <= a <= 9 -> 0 <= b <= 9 ->
  Ascii.compare (digit_char a) (digit_char b) = (a ?= b).
Proof.
  intros Ha Hb.
  assert (Hca : a = 0 \/ a = 1 \/ a = 2 \/ a = 3 \/ a = 4 \/ a = 5 \/ a = 6 \/ a = 7
               \/ a = 8 \/ a = 9) by lia.
  assert (Hcb : b = 0 \/ b = 1 \/ b = 2 \/ b = 3 \/ b = 4 \/ b = 5 \/ b = 6 \/ b = 7
               \/ b = 8 \/ b = 9) by lia.
  repeat destruct Hca as [-> | Hca]; try subst a;
    repeat destruct Hcb as [-> | Hcb]; try subst b; reflexivity.
Qed.

Lemma app_String c s t : String c s +:+ t = String c (s +:+ t).
Proof. reflexivity. Qed.

Lemma app_Empty t : EmptyString +:+ t = t.
Proof. reflexivity. Qed.

Lemma pow10_pos w : 0 < 10 ^ Z.of_nat w.
Proof. apply Z.pow_pos_nonneg; lia. Qed.

Lemma pow10_succ w : 10 ^ Z.of_nat (S w) = 10 * 10 ^ Z.of_nat w.
Proof. rewrite Nat2Z.inj_succ, Z.pow_succ_r; lia. Qed.

Lemma lead_digit_range w n :
  0 <= n < 10 ^ Z.of_nat (S w) ->
  0 <= n / 10 ^ Z.of_nat w <= 9 /\ 0 <= n mod 10 ^ Z.of_nat w < 10 ^ Z.of_nat w.
Proof.
  intros Hn. rewrite pow10_succ in Hn.
  pose proof (pow10_pos w) as Hp.
  split; [|apply Z.mod_pos_bound; lia].
  split; [apply Z.div_pos; lia|].
  assert (n / 10 ^ Z.of_nat w < 10); [|lia].
  apply Z.div_lt_upper_bound; lia.
Qed.

Lemma read_digits_zpad w n acc rest :
  0 <= n < 10 ^ Z.of_nat w ->
  read_digits w acc (zpad w n +:+ rest) = Some (acc * 10 ^ Z.of_nat w + n, rest).
Proof.
  revert n acc. induction w as [|w IH]; intros n acc Hn.
  - simpl in *. f_equal. f_equal. lia.
  - destruct (lead_digit_range w n Hn) as [Hq Hr].
    destruct (digit_char_spec _ Hq) as [Hd Hv].
    cbn [zpad]. rewrite app_String. cbn [read_digits]. rewrite Hd, Hv, IH by done.
    f_equal. f_equal. rewrite pow10_succ.
    pose proof (Z.div_mod n (10 ^ Z.of_nat w)) as Hdm.
    pose proof (pow10_pos w). lia.
Qed.

Lemma compare_zpad w a b s t :
  0 <= a < 10 ^ Z.of_nat w -> 0 <= b < 10 ^ Z.of_nat w ->
  String.compare (zpad w a +:+ s) (zpad w b +:+ t)
  = match a ?= b with Eq => String.compare s t | c => c end.
Proof.
  revert a b. induction w as [|w IH]; intros a b Ha Hb.
  - simpl in *. assert (a = b) as -> by lia. by rewrite Z.compare_refl.
  - destruct (lead_digit_range w a Ha) as [Hqa Hra].
    destruct (lead_digit_range w b Hb) as [Hqb Hrb].
    cbn [zpad]. rewrite !app_String. cbn [String.compare].
    rewrite digit_char_compare by done.
    pose proof (Z.div_mod a (10 ^ Z.of_nat w)) as Hda.
    pose proof (Z.div_mod b (10 ^ Z.of_nat w)) as Hdb.
    pose proof (pow10_pos w) as Hp.
    destruct (Z.compare_spec (a / 10 ^ Z.of_nat w) (b / 10 ^ Z.of_nat w)) as [He|Hl|Hg].
    + rewrite IH by done.
      assert ((a ?= b) = (a mod 10 ^ Z.of_nat w ?= b mod 10 ^ Z.of_nat w)) as ->; [|done].
      destruct (Z.compare_spec (a mod 10 ^ Z.of_nat w) (b mod 10 ^ Z.of_nat w));
        [apply Z.compare_eq_iff|apply Z.compare_lt_iff|apply Z.compare_gt_iff]; nia.
    + assert (a < b) as ->%Z.compare_lt_iff; [nia|done].
    + assert (b < a) as ->%Z.compare_gt_iff; [nia|done].
Qed.

(** ** [isoformat], read back and compared *)

Lemma days_in_month_le y m : days_in_month y m <= 31.
Proof.
  unfold days_in_month. destruct ((m =? 2) && is_leap y); [lia|].
  unfold DAYS_IN_MONTH.
  repeat match goal with |- context [match ?x with _ => _ end] => destruct x end; lia.
Qed.

Lemma valid_fields_in_range d : valid_datetime d = true -> fields_in_range d.
Proof.
  unfold valid_datetime, fields_in_range. intros Hv.
  repeat (apply andb_prop in Hv as [Hv ?]).
  pose proof (days_in_month_le (year d) (month d)).
  change (10 ^ Z.of_nat 4) with 10000. change (10 ^ Z.of_nat 2) with 100.
  change (10 ^ Z.of_nat 6) with 1000000. lia.
Qed.

Lemma read_isoformat d :
  fields_in_range d -> read_utc_datetime (isoformat d) = Some d.
Proof.
  intros (Hy & Hm & Hd & Hh & Hmi & Hs & Hu).
  destruct d as [y m dd hh mi ss us]; cbn [year month day hour minute second microsecond] in *.
  unfold read_utc_datetime, isoformat; cbn [year month day hour minute second microsecond].
  rewrite read_digits_zpad by done. cbn [mbind option_bind expect Ascii.eqb].
  rewrite app_String, app_Empty. cbn [expect]. rewrite Ascii.eqb_refl.
  cbn [mbind option_bind].
  rewrite read_digits_zpad by done. cbn [mbind option_bind].
  rewrite app_String, app_Empty. cbn [expect]. rewrite Ascii.eqb_refl.
  cbn [mbind option_bind].
  rewrite read_digits_zpad by done. cbn [mbind option_bind].
  rewrite app_String, app_Empty. cbn [expect]. rewrite Ascii.eqb_refl.
  cbn [mbind option_bind].
  rewrite read_digits_zpad by done. cbn [mbind option_bind].
  rewrite app_String, app_Empty. cbn [expect]. rewrite Ascii.eqb_refl.
  cbn [mbind option_bind].
  rewrite read_digits_zpad by done. cbn [mbind option_bind].
  rewrite app_String, app_Empty. cbn [expect]. rewrite Ascii.eqb_refl.
  cbn [mbind option_bind].
  rewrite read_digits_zpad by done. cbn [mbind option_bind].
  unfold iso_fraction. destruct (Z.eqb_spec us 0) as [->|Hne].
  - reflexivity.
  - rewrite !app_String, app_Empty. cbn [read_fraction].
    rewrite read_digits_zpad by done. cbn [mbind option_bind].
    reflexivity.
Qed.

Lemma isoparse_utc_isoformat d :
  valid_datetime d = true -> isoparse_utc (isoformat d) = Ret d.
Proof.
  intros Hv. unfold isoparse_utc.
  rewrite read_isoformat by by apply valid_fields_in_range.
  by rewrite Hv.
Qed.

Lemma compare_sep c s t : String.compare (String c s) (String c t) = String.compare s t.
Proof.
  cbn [String.compare].
  assert (Ascii.compare c c = Eq) as ->; [|done].
  unfold Ascii.compare. apply N.compare_refl.
Qed.

Lemma compare_same s : String.compare s s = Eq.
Proof. induction s; [done|]. by rewrite compare_sep. Qed.

Lemma compare_fraction u1 u2 :
  0 <= u1 < 10 ^ Z.of_nat 6 -> 0 <= u2 < 10 ^ Z.of_nat 6 ->
  String.compare (iso_fraction u1 +:+ "+00:00") (iso_fraction u2 +:+ "+00:00")
  = (u1 ?= u2).
Proof.
  intros H1 H2. unfold iso_fraction.
  destruct (Z.eqb_spec u1 0) as [->|N1], (Z.eqb_spec u2 0) as [->|N2].
  - reflexivity.
  - symmetry. apply Z.compare_lt_iff. lia.
  - symmetry. apply Z.compare_gt_iff. lia.
  - rewrite !app_String, !app_Empty, compare_sep, compare_zpad, compare_same by done.
    by destruct (u1 ?= u2).
Qed.

Lemma compare_isoformat d1 d2 :
  fields_in_range d1 -> fields_in_range d2 ->
  String.compare (isoformat d1) (isoformat d2) = dt_cmp d1 d2.
Proof.
  intros (Hy1 & Hm1 & Hd1 & Hh1 & Hmi1 & Hs1 & Hu1) (Hy2 & Hm2 & Hd2 & Hh2 & Hmi2 & Hs2 & Hu2).
  unfold isoformat, dt_cmp, dt_fields. cbn [lex_compare].
  rewrite !app_String, !app_Empty.
  rewrite compare_zpad by done. destruct (year d1 ?= year d2); try done.
  rewrite compare_sep, compare_zpad by done. destruct (month d1 ?= month d2); try done.
  rewrite compare_sep, compare_zpad by done. destruct (day d1 ?= day d2); try done.
  rewrite compare_sep, compare_zpad by done. destruct (hour d1 ?= hour d2); try done.
  rewrite compare_sep, compare_zpad by done. destruct (minute d1 ?= minute d2); try done.
  rewrite compare_sep, compare_zpad by done. destruct (second d1 ?= second d2); try done.
  rewrite compare_fraction by done. by destruct (microsecond d1 ?= microsecond d2).
Qed.

Lemma isoformat_le_iff d1 d2 :
  fields_in_range d1 -> fields_in_range d2 ->
  String.le (isoformat d1) (isoformat d2) <-> dt_le d1 d2 = true.
Proof.
  intros H1 H2. unfold String.le, String.leb, dt_le.
  rewrite compare_isoformat by done.
  destruct (dt_cmp d1 d2); simpl; intuition congruence.
Qed.

(** ** A reference instance of the libraries *)

#[local] Instance sample_dateutil : Dateutil := {|
  tzinfo := Z * string;
  gettz := sample_gettz;
  tz_UTC := (0, "UTC");
  strftime_in := sample_strftime;
  isoparse := isoparse_utc;
  isoparse_isoformat := isoparse_utc_isoformat
|}.

(** ** Duration texts *)

Lemma lower_upper_char c : lower_char (upper_char c) = lower_char c.
Proof. destruct c as [[] [] [] [] [] [] [] []]; reflexivity. Qed.

Lemma lower_lower_char c : lower_char (lower_char c) = lower_char c.
Proof. destruct c as [[] [] [] [] [] [] [] []]; reflexivity. Qed.

Lemma lower_upper t : lower (upper t) = lower t.
Proof. induction t as [|c t IH]; [done|]. cbn. by rewrite lower_upper_char, IH. Qed.

Lemma lower_lower t : lower (lower t) = lower t.
Proof. induction t as [|c t IH]; [done|]. cbn. by rewrite lower_lower_char, IH. Qed.

(** C9. Duration parsing is case-insensitive: the text is lowercased before
    it is matched, so a text and its uppercase or lowercase form parse alike;
    "10S" and "5M" are accepted and yield what "10s" and "5m" yield, although
    the pattern alone refuses them. *)
Theorem parse_simple_time_ignores_case :
  (forall t, parse_simple_time (upper t) = parse_simple_time t) /\
  (forall t, parse_simple_time (lower t) = parse_simple_time t) /\
  parse_simple_time "10S" = Ret (Some (10 * US_PER_SECOND)) /\
  parse_simple_time "10S" = parse_simple_time "10s" /\
  parse_simple_time "5M" = Ret (Some (5 * US_PER_MINUTE)) /\
  parse_simple_time "5M" = parse_simple_time "5m" /\
  re_match_duration "10S" = None /\
  re_match_duration "5M" = None.
Proof.
  repeat split; try reflexivity.
  - intros t. unfold parse_simple_time. by rewrite lower_upper.
  - intros t. unfold parse_simple_time. by rewrite lower_lower.
Qed.

(** ** Timezone resolution *)

Section Resolution.
  Context `{Dateutil}.
  Implicit Types (conn : store) (cid uid name : string).

(** C3. Timezone resolution precedence: the per-user setting when the user
    has one; otherwise the per-channel setting when the channel has one;
    otherwise UTC under the name "UTC".  The result is a plain pair: the
    function has no raising outcome. *)
Theorem get_tz_context_precedence conn cid uid :
  (forall name, user_settings conn !! uid = Some name ->
     get_tz_context conn cid uid = (gettz name, name)) /\
  (forall name, user_settings conn !! uid = None ->
     server_settings conn !! cid = Some name ->
     get_tz_context conn cid uid = (gettz name, name)) /\
  (user_settings conn !! uid = None -> server_settings conn !! cid = None ->
     get_tz_context conn cid uid = (Some tz_UTC, "UTC")).
Proof.
  unfold get_tz_context. repeat split.
  - by intros name ->.
  - by intros name -> ->.
  - by intros -> ->.
Qed.

(** C10. The UTC fallback applies only when no setting row exists: a
    stored name that the timezone database does not know is returned with
    no zone object, whether it is the user's row or, the user having none,
    the channel's; neither the next level nor UTC is tried. *)
Theorem get_tz_context_unknown_name conn cid uid name :
  gettz name = None ->
  (user_settings conn !! uid = Some name ->
     get_tz_context conn cid uid = (None, name)) /\
  (user_settings conn !! uid = None -> server_settings conn !! cid = Some name ->
     get_tz_context conn cid uid = (None, name)).
Proof.
  intros Hname. unfold get_tz_context. split.
  - intros ->. by rewrite Hname.
  - intros -> ->. by rewrite Hname.
Qed.

End Resolution.

Lemma get_tz_context_precedence_witness :
  get_tz_context sample_settings "chan-1" "alice"
    = (Some (-300, "EST"), "America/New_York") /\
  get_tz_context sample_settings "chan-1" "bob" = (Some (0, "UTC"), "UTC") /\
  get_tz_context sample_settings "chan-2" "bob" = (Some (0, "UTC"), "UTC").
Proof.
  destruct (get_tz_context_precedence sample_settings "chan-1" "alice") as (Hu & _ & _).
  destruct (get_tz_context_precedence sample_settings "chan-1" "bob") as (_ & Hc & _).
  destruct (get_tz_context_precedence sample_settings "chan-2" "bob") as (_ & _ & Hn).
  split; [|split].
  - apply (Hu "America/New_York"). reflexivity.
  - apply (Hc "UTC"); reflexivity.
  - apply Hn; reflexivity.
Defined.

Lemma get_tz_context_unknown_name_witness :
  get_tz_context stale_settings "chan-1" "alice" = (None, "Mars/Phobos") /\
  get_tz_context stale_settings "chan-1" "bob" = (None, "Mars/Phobos").
Proof.
  destruct (get_tz_context_unknown_name stale_settings "chan-1" "alice" "Mars/Phobos")
    as [Hu _]; [reflexivity|].
  destruct (get_tz_context_unknown_name stale_settings "chan-1" "bob" "Mars/Phobos")
    as [_ Hc]; [reflexivity|].
  split; [apply Hu|apply Hc]; reflexivity.
Defined.

(** ** Runs of the delivery loop *)

Lemma collect_split clock start k q batch rest :
  collect clock start k q = (batch, rest) -> q = batch ++ rest.
Proof.
  revert k batch rest. induction q as [|x q IH]; intros k batch rest Hc; cbn in Hc.
  - by inversion Hc.
  - destruct (clock k - start >? BURST_WINDOW * US_PER_SECOND).
    + by inversion Hc.
    + destruct (collect clock start (S k) q) as [b' r'] eqn:Hq.
      inversion Hc; subst. cbn. f_equal. by eapply IH.
Qed.

Lemma collect_nonempty clock start k x q batch rest :
  collect clock start k (x :: q) = (batch, rest) -> exists batch', batch = x :: batch'.
Proof.
  cbn. destruct (clock k - start >? BURST_WINDOW * US_PER_SECOND).
  - intros [= <- _]. by eexists.
  - destruct (collect clock start (S k) q). intros [= <- _]. by eexists.
Qed.

(** Within the burst window the inner loop takes the whole queue. *)
Lemma collect_all clock start k q :
  (forall i, (k <= i < k + length q - 1)%nat ->
     clock i - start <= BURST_WINDOW * US_PER_SECOND) ->
  collect clock start k q = (q, []).
Proof.
  revert k. induction q as [|x q IH]; intros k Hw; [done|].
  cbn [collect]. destruct q as [|y q].
  - cbn. by destruct (_ >? _).
  - assert ((clock k - start >? BURST_WINDOW * US_PER_SECOND) = false) as ->.
    { rewrite Z.gtb_ltb. apply Z.ltb_ge. apply Hw. cbn. lia. }
    rewrite IH; [done|]. intros i Hi. apply Hw. cbn in *. lia.
Qed.

Lemma queue_worker_iter_queue clock res b b' sent sleep :
  queue_worker_iter clock res b = (b', sent, sleep) ->
  message_queue b' `suffix_of` message_queue b /\ db b' = db b.
Proof.
  unfold queue_worker_iter. destruct (message_queue b) as [|x q] eqn:Hq.
  - intros [= <- _ _]. by rewrite Hq.
  - destruct (collect clock (clock O) 1%nat (x :: q)) as [batch rest] eqn:Hc.
    apply collect_split in Hc.
    destruct res; intros [= <- _ _]; cbn; (split; [|done]);
      rewrite Hc; by apply suffix_app_r.
Qed.

Lemma passes_shrink_queue evs r r' :
  forallb is_pass evs = true -> execute evs r = Some r' ->
  message_queue (r_bot r') `suffix_of` message_queue (r_bot r).
Proof.
  revert r. induction evs as [|ev evs IH]; intros r Hp He; cbn in *.
  - by inversion He.
  - apply andb_prop in Hp as [Hev Hp].
    destruct ev as [|t clock t_send res t_done]; [done|]. cbn in He.
    destruct (_ && _); [|done].
    destruct (queue_worker_iter clock res (r_bot r)) as [[b' sent] sleep] eqn:Hi.
    apply queue_worker_iter_queue in Hi as [Hs _].
    destruct sent; (etrans; [eapply IH; [done|exact He]|exact Hs]).
Qed.

(** C8. A send that raises: the pass catches the error, logs it under
    "[Queue]" and sleeps two seconds.  The batch it had dequeued is gone from
    the queue, what it had not dequeued stays, and no later pass of the loop
    puts anything back.  The loop goes on: its next pass runs at any time
    from two seconds after the failure, and not before. *)
Theorem failed_send_drops_batch r t clock t_send e t_done x q :
  message_queue (r_bot r) = x :: q ->
  r_time r <= t -> r_wake r <= t -> t <= t_send -> t_send <= t_done ->
  exists batch rest r',
    collect clock (clock O) 1%nat (x :: q) = (batch, rest) /\
    x :: q = batch ++ rest /\ batch <> [] /\
    step (Pass t clock t_send (SendRaises e) t_done) r = Some r' /\
    message_queue (r_bot r') = rest /\
    log (r_bot r') = log (r_bot r) ++ [("[Queue]", e)] /\
    db (r_bot r') = db (r_bot r) /\
    r_calls r' = r_calls r ++ [(t_send, String.concat NEWLINE batch)] /\
    r_wake r' = t_done + 2 * US_PER_SECOND /\
    (forall evs r'', forallb is_pass evs = true -> execute evs r' = Some r'' ->
       message_queue (r_bot r'') `suffix_of` rest) /\
    (forall t' clock' t_send' res' t_done',
       is_Some (step (Pass t' clock' t_send' res' t_done') r') <->
       t <= t' /\ t_done + 2 * US_PER_SECOND <= t' /\ t' <= t_send' /\ t_send' <= t_done').
Proof.
  intros Hq Ht Hw Hts Htd.
  destruct (collect clock (clock O) 1%nat (x :: q)) as [batch rest] eqn:Hc.
  pose proof (collect_split _ _ _ _ _ _ Hc) as Hsplit.
  destruct (collect_nonempty _ _ _ _ _ _ _ Hc) as [batch' ->].
  eexists _, _, _. split; [done|]. split; [done|]. split; [done|].
  split.
  { cbn [step]. unfold queue_worker_iter. rewrite Hq, Hc.
    assert ((r_time r <=? t) && (r_wake r <=? t) && (t <=? t_send) && (t_send <=? t_done)
            = true) as ->; [|done].
    rewrite !andb_true_iff, !Z.leb_le. lia. }
  split; [done|]. split; [done|]. split; [done|]. split; [done|]. split; [done|].
  split.
  { intros evs r'' Hp He. by apply (passes_shrink_queue _ _ _ Hp He). }
  intros t' clock' t_send' res' t_done'. cbn [step r_time r_wake].
  destruct ((t <=? t') && (t_done + 2 * US_PER_SECOND <=? t') && (t' <=? t_send')
            && (t_send' <=? t_done')) eqn:Hb.
  - rewrite !andb_true_iff, !Z.leb_le in Hb. split; [lia|]. intros _.
    destruct (queue_worker_iter _ _ _) as [[b' [s|]] sl]; by eexists.
  - split; [by intros [? ?]|]. intros Hle.
    assert ((t <=? t') && (t_done + 2 * US_PER_SECOND <=? t') && (t' <=? t_send')
            && (t_send' <=? t_done') = true) as Hb'.
    { rewrite !andb_true_iff, !Z.leb_le. lia. }
    congruence.
Qed.

Lemma spaced_snoc gap ts t :
  spaced gap ts -> (forall tl, last ts = Some tl -> tl + gap <= t) ->
  spaced gap (ts ++ [t]).
Proof.
  induction ts as [|t1 ts IH]; intros Hs Hl; [done|].
  destruct ts as [|t2 ts].
  - cbn. split; [|done]. by apply Hl.
  - destruct Hs as [H12 Hs]. split; [done|].
    apply IH; [done|]. intros tl Htl. apply Hl. by rewrite last_cons_cons.
Qed.

Lemma queue_worker_iter_sleep clock res b b' text sleep :
  queue_worker_iter clock res b = (b', Some text, sleep) ->
  SEND_INTERVAL * US_PER_SECOND <= sleep.
Proof.
  unfold queue_worker_iter. destruct (message_queue b); [done|].
  destruct (collect _ _ _ _).
  destruct res; intros [= _ _ <-]; unfold SEND_INTERVAL, US_PER_SECOND; lia.
Qed.

Lemma queue_worker_iter_idle clock res b b' sleep :
  queue_worker_iter clock res b = (b', None, sleep) -> 0 <= sleep.
Proof.
  unfold queue_worker_iter. destruct (message_queue b).
  - intros [= _ <-]. lia.
  - destruct (collect _ _ _ _). by destruct res.
Qed.

Lemma step_paced ev r r' : step ev r = Some r' -> paced r -> paced r'.
Proof.
  intros Hs [Hsp Hw]. destruct ev as [t text|t clock t_send res t_done]; cbn in Hs.
  - destruct (_ <=? _); [|done]. inversion Hs; subst. by split.
  - destruct (_ && _) eqn:Hb; [|done].
    rewrite !andb_true_iff, !Z.leb_le in Hb.
    destruct (queue_worker_iter clock res (r_bot r)) as [[b' [text|]] sleep] eqn:Hi;
      inversion Hs; subst; unfold paced; cbn [r_calls r_wake].
    + apply queue_worker_iter_sleep in Hi. split.
      * rewrite fmap_snoc. apply spaced_snoc; [done|].
        intros tl Htl. specialize (Hw tl Htl). cbn [fst]. lia.
      * intros tl. rewrite fmap_snoc, last_snoc. intros [= <-]. cbn [fst]. lia.
    + apply queue_worker_iter_idle in Hi. split; [done|].
      intros tl Htl. specialize (Hw tl Htl). lia.
Qed.

Lemma execute_paced evs r r' : execute evs r = Some r' -> paced r -> paced r'.
Proof.
  revert r. induction evs as [|ev evs IH]; intros r He Hp; cbn in He.
  - by inversion He; subst.
  - destruct (step ev r) as [r1|] eqn:Hs; [|done].
    eapply IH; [done|]. by eapply step_paced.
Qed.

(** C7. Rate limiting: in every run of the delivery loop, whatever is
    enqueued and whenever, any two consecutive calls of [send] are at least
    the send interval apart. *)
Theorem send_calls_spaced evs b r :
  execute evs (start_run b) = Some r ->
  spaced (SEND_INTERVAL * US_PER_SECOND) (r_calls r).*1.
Proof.
  intros He. eapply execute_paced in He as [Hs _]; [done|].
  split; [done|]. by intros tl.
Qed.

(** C6 as stated fails in two ways, with a burst window of two seconds and
    three fragments enqueued within 500 ms: the loop wakes between two of
    them and sends what it finds; or the wall clock is set forward by more
    than the window while the loop collects, and the loop sends what it has
    taken so far.  Either way two calls of [send] are made. *)
Lemma burst_not_coalesced :
  BURST_WINDOW = 2 /\
  (burst_of_three 500000 split_burst "a" "b" "c" /\
   ~ coalesced split_burst "a" "b" "c") /\
  (burst_of_three 500000 jump_burst "a" "b" "c" /\
   ~ coalesced jump_burst "a" "b" "c").
Proof.
  split; [reflexivity|]. split; split.
  - exists 0, 300000, 500000. split; [reflexivity|lia].
  - intros Hc.
    specialize (Hc fresh_bot
      (mk_run fresh_bot 1150000 2200000
         [(100000, "a"); (1150000, String.concat NEWLINE ["b"; "c"])])
      eq_refl eq_refl eq_refl).
    discriminate Hc.
  - exists 0, 300000, 500000. split; [reflexivity|lia].
  - intros Hc.
    specialize (Hc fresh_bot
      (mk_run fresh_bot 1650000 2700000
         [(600000, String.concat NEWLINE ["a"; "b"]); (1650000, "c")])
      eq_refl eq_refl eq_refl).
    discriminate Hc.
Qed.

Lemma queue_worker_iter_takes_all clock res b x q :
  message_queue b = x :: q ->
  (forall i, (1 <= i <= length q)%nat ->
     clock i - clock O <= BURST_WINDOW * US_PER_SECOND) ->
  exists b' sleep,
    queue_worker_iter clock res b = (b', Some (String.concat NEWLINE (x :: q)), sleep) /\
    message_queue b' = [].
Proof.
  intros Hq Hw. unfold queue_worker_iter. rewrite Hq.
  rewrite collect_all.
  - destruct res; by eexists _, _.
  - intros i Hi. apply Hw. cbn [length] in Hi. lia.
Qed.

(** C6, as the code has it.  Three fragments enqueued with no pass of the
    delivery loop between the first and the last are all in the queue when
    the loop next collects; if the clock moves no more than the burst window
    while it collects, that pass makes exactly one call of [send], whose text
    is the three fragments joined by newlines in the order of arrival, and
    leaves the queue empty. *)
Theorem queued_burst_coalesced bot0 ta a tb b tc c t clock t_send res t_done :
  message_queue bot0 = [] ->
  0 <= ta -> ta <= tb -> tb <= tc -> tc <= t -> t <= t_send -> t_send <= t_done ->
  clock 1%nat - clock O <= BURST_WINDOW * US_PER_SECOND ->
  clock 2%nat - clock O <= BURST_WINDOW * US_PER_SECOND ->
  exists r,
    execute [Enqueue ta a; Enqueue tb b; Enqueue tc c; Pass t clock t_send res t_done]
            (start_run bot0) = Some r /\
    r_calls r = [(t_send, String.concat NEWLINE [a; b; c])] /\
    message_queue (r_bot r) = [].
Proof.
  intros Hq H0 Hab Hbc Hct Hts Htd Hc1 Hc2.
  cbn [execute step start_run r_time r_wake r_bot r_calls].
  assert ((0 <=? ta) = true) as -> by by apply Z.leb_le.
  cbn [execute step r_time r_wake r_bot r_calls].
  assert ((ta <=? tb) = true) as -> by by apply Z.leb_le.
  cbn [execute step r_time r_wake r_bot r_calls].
  assert ((tb <=? tc) = true) as -> by by apply Z.leb_le.
  cbn [execute step r_time r_wake r_bot r_calls].
  assert ((tc <=? t) && (0 <=? t) && (t <=? t_send) && (t_send <=? t_done) = true) as ->.
  { rewrite !andb_true_iff, !Z.leb_le. lia. }
  destruct (queue_worker_iter_takes_all clock res
              (queue_message c (queue_message b (queue_message a bot0))) a [b; c])
    as (b' & sleep & -> & Hempty).
  - cbn. by rewrite Hq.
  - intros i Hi. cbn [length] in Hi.
    assert (i = 1 \/ i = 2)%nat as [-> | ->] by lia; done.
  - by eexists.
Qed.

Lemma queued_burst_coalesced_witness :
  exists r,
    execute [Enqueue 0 "a"; Enqueue 300000 "b"; Enqueue 500000 "c";
             Pass 600000 (steady 600000) 600000 SendOk 650000]
            (start_run fresh_bot) = Some r /\
    r_calls r = [(600000, String.concat NEWLINE ["a"; "b"; "c"])] /\
    message_queue (r_bot r) = [].
Proof.
  apply (queued_burst_coalesced fresh_bot 0 "a" 300000 "b" 500000 "c"
           600000 (steady 600000) 600000 SendOk 650000);
    first [reflexivity | vm_compute; congruence].
Defined.

Lemma send_calls_spaced_witness :
  spaced (SEND_INTERVAL * US_PER_SECOND) [100000; 1150000].
Proof.
  apply (send_calls_spaced split_burst fresh_bot
           (mk_run fresh_bot 1150000 2200000
              [(100000, "a"); (1150000, String.concat NEWLINE ["b"; "c"])])).
  reflexivity.
Defined.

Lemma failed_send_drops_batch_witness :
  exists batch rest r',
    collect jumpy (jumpy O) 1%nat ["a"; "b"; "c"; "d"] = (batch, rest) /\
    ["a"; "b"; "c"; "d"] = batch ++ rest /\ batch <> [] /\
    step (Pass 10 jumpy 20 (SendRaises (Exception "503")) 30) loaded_run = Some r' /\
    message_queue (r_bot r') = rest /\
    log (r_bot r') = [("[Queue]", Exception "503")] /\
    db (r_bot r') = init_db /\
    r_calls r' = [(20, String.concat NEWLINE batch)] /\
    r_wake r' = 30 + 2 * US_PER_SECOND /\
    (forall evs r'', forallb is_pass evs = true -> execute evs r' = Some r'' ->
       message_queue (r_bot r'') `suffix_of` rest) /\
    (forall t' clock' t_send' res' t_done',
       is_Some (step (Pass t' clock' t_send' res' t_done') r') <->
       10 <= t' /\ 30 + 2 * US_PER_SECOND <= t' /\ t' <= t_send' /\ t_send' <= t_done').
Proof.
  apply (failed_send_drops_batch loaded_run 10 jumpy 20 (Exception "503") 30 "a" ["b"; "c"; "d"]);
    first [reflexivity | vm_compute; congruence].
Defined.

Example jumpy_batch :
  collect jumpy (jumpy O) 1%nat ["a"; "b"; "c"; "d"] = (["a"; "b"], ["c"; "d"]).
Proof. reflexivity. Qed.

(** ** Which texts [parse_simple_time] takes *)

Lemma span_digits_spec s ds rest :
  span_digits s = (ds, rest) ->
  s = ds +:+ rest /\ all_digits ds = true /\
  match rest with String c _ => is_digit c = false | EmptyString => True end.
Proof.
  revert ds rest. induction s as [|c s IH]; intros ds rest Hs; cbn in Hs.
  - by inversion Hs.
  - destruct (is_digit c) eqn:Hc.
    + destruct (span_digits s) as [ds' rest'] eqn:Hs'. inversion Hs; subst.
      destruct (IH _ _ eq_refl) as (-> & Hall & Hrest).
      rewrite app_String. cbn [all_digits]. by rewrite Hc, Hall.
    + inversion Hs; subst. by rewrite Hc.
Qed.

Lemma is_unit_not_digit u : is_unit u = true -> is_digit u = false.
Proof. destruct u as [[] [] [] [] [] [] [] []]; (done || reflexivity). Qed.

Lemma span_digits_app ds u rest :
  all_digits ds = true -> is_digit u = false ->
  span_digits (ds +:+ String u rest) = (ds, String u rest).
Proof.
  intros Hall Hu. induction ds as [|c ds IH].
  - rewrite app_Empty. cbn [span_digits]. by rewrite Hu.
  - cbn [all_digits] in Hall. apply andb_prop in Hall as [Hc Hall].
    rewrite app_String. cbn [span_digits]. by rewrite Hc, IH.
Qed.

Lemma re_match_duration_Some s ds u :
  re_match_duration s = Some (ds, u) ->
  ds <> EmptyString /\ all_digits ds = true /\ is_unit u = true /\
  (s = ds +:+ String u EmptyString \/ s = ds +:+ String u NEWLINE).
Proof.
  unfold re_match_duration.
  destruct (span_digits s) as [ds' rest] eqn:Hs.
  apply span_digits_spec in Hs as (-> & Hall & _).
  destruct ds' as [|c ds']; [done|].
  destruct rest as [|u' rest]; [done|].
  destruct (is_unit u') eqn:Hu; [|done]. cbn [andb].
  destruct (String.eqb_spec rest EmptyString) as [->|Hne].
  - intros [= <- <-]. repeat split; auto.
  - destruct (String.eqb_spec rest NEWLINE) as [->|Hne'].
    + intros [= <- <-]. repeat split; auto.
    + done.
Qed.

Lemma re_match_duration_None s : ~ matches_pattern s -> re_match_duration s = None.
Proof.
  intros Hn. destruct (re_match_duration s) as [[ds u]|] eqn:Hm; [|done].
  destruct Hn. exists ds, u. by apply re_match_duration_Some.
Qed.

Lemma re_match_duration_plain ds u :
  ds <> EmptyString -> all_digits ds = true -> is_unit u = true ->
  re_match_duration (ds +:+ String u EmptyString) = Some (ds, u).
Proof.
  intros Hne Hall Hu. unfold re_match_duration.
  rewrite span_digits_app by auto using is_unit_not_digit.
  destruct ds; [done|]. by rewrite Hu.
Qed.

Lemma re_match_duration_newline ds u :
  ds <> EmptyString -> all_digits ds = true -> is_unit u = true ->
  re_match_duration (ds +:+ String u NEWLINE) = Some (ds, u).
Proof.
  intros Hne Hall Hu. unfold re_match_duration.
  rewrite span_digits_app by auto using is_unit_not_digit.
  destruct ds; [done|]. by rewrite Hu.
Qed.

Lemma matches_pattern_iff s : matches_pattern s <-> is_Some (re_match_duration s).
Proof.
  split.
  - intros (ds & u & Hne & Hall & Hu & [-> | ->]).
    + rewrite re_match_duration_plain by done. by eexists.
    + rewrite re_match_duration_newline by done. by eexists.
  - intros [[ds u] Hm]. exists ds, u. by apply re_match_duration_Some.
Qed.

Lemma integer_and_unit_matches s : integer_and_unit s -> matches_pattern s.
Proof. intros (ds & u & ? & ? & ? & ->). exists ds, u. auto. Qed.

Lemma lower_digit_char c : is_digit c = true -> lower_char c = c.
Proof. destruct c as [[] [] [] [] [] [] [] []]; (done || reflexivity). Qed.

Lemma lower_digits ds rest :
  all_digits ds = true -> lower (ds +:+ rest) = ds +:+ lower rest.
Proof.
  intros Hall. induction ds as [|c ds IH]; [done|].
  cbn [all_digits] in Hall. apply andb_prop in Hall as [Hc Hall].
  rewrite !app_String. cbn [lower]. by rewrite lower_digit_char, IH.
Qed.

Lemma int_of_digits_from_nonneg ds acc :
  all_digits ds = true -> 0 <= acc -> 0 <= int_of_digits_from acc ds.
Proof.
  revert acc. induction ds as [|c ds IH]; intros acc Hall Hacc; [done|].
  cbn [all_digits int_of_digits_from] in *.
  apply andb_prop in Hall as [Hc Hall]. apply IH; [done|].
  unfold is_digit in Hc. apply andb_prop in Hc as [Hc _].
  apply Nat.leb_le in Hc. unfold digit_val. lia.
Qed.

(** What [parse_simple_time] returns on digits followed by a unit letter of
    either case. *)
Lemma parse_simple_time_digits ds u :
  ds <> EmptyString -> all_digits ds = true -> is_unit (lower_char u) = true ->
  parse_simple_time (ds +:+ String u EmptyString)
  = if MAX_STR_DIGITS <? Z.of_nat (String.length ds) then Raise ValueError
    else if int_of_digits ds <=? MAX_DELTA_DAYS
    then Ret (Some (int_of_digits ds * unit_micros (lower_char u)))
    else Raise OverflowError.
Proof.
  intros Hne Hall Hu. unfold parse_simple_time.
  rewrite lower_digits by done. cbn [lower].
  rewrite re_match_duration_plain by done.
  unfold int_of_text. destruct (MAX_STR_DIGITS <? Z.of_nat (String.length ds)); [done|].
  cbn [mbind outcome_bind].
  pose proof (int_of_digits_from_nonneg ds 0 Hall ltac:(lia)) as Hv.
  fold (int_of_digits ds) in Hv. set (v := int_of_digits ds) in *.
  unfold timedelta_days, timedelta_hours, timedelta_minutes, timedelta_seconds, mk_timedelta.
  assert (Hd : v * US_PER_DAY / US_PER_DAY = v) by (apply Z.div_mul; done).
  rewrite Hd. rewrite (Z.abs_eq v) by done.
  destruct (Z.leb_spec v MAX_DELTA_DAYS) as [Hle|Hgt]; [|done].
  assert (Hb : forall k, 0 < k -> k <= US_PER_DAY ->
            (Z.abs (v * k / US_PER_DAY) <=? MAX_DELTA_DAYS) = true).
  { intros k Hk1 Hk2. apply Z.leb_le.
    assert (0 <= v * k / US_PER_DAY) by (apply Z.div_pos; [lia|done]).
    rewrite Z.abs_eq by done.
    transitivity (v * US_PER_DAY / US_PER_DAY); [|lia].
    apply Z.div_le_mono; [done|nia]. }
  cbn [mbind outcome_bind].
  rewrite !Hb by done. cbn [mbind outcome_bind mret outcome_ret].
  f_equal. f_equal.
  destruct (lower_char u) as [[] [] [] [] [] [] [] []]; (done || reflexivity).
Qed.

(** ** Validation *)

Section Validation.
  Context `{Dateutil}.

Lemma settz_unknown ctx tz b :
  gettz tz = None ->
  (settz ctx tz b).1 = b /\
  (passes_admin_check ctx b -> (settz ctx tz b).2 = REPLY_INVALID_TZ).
Proof.
  intros Htz. unfold settz, passes_admin_check. rewrite Htz.
  destruct (String.eqb_spec (admin_role_id b) EmptyString) as [He|Hne]; cbn [negb andb].
  - done.
  - destruct (bool_decide_reflect (admin_role_id b ∈ ctx_role_ids ctx)) as [Hin|Hnin];
      cbn [negb]; [done|].
    split; [done|]. by intros [?|?].
Qed.

(** C4, as the code has it.  A call to create a reminder whose duration
    text is ASCII and, once lowercased, is not one or more digits followed
    by one of d, h, m, s (a final newline aside) gets the invalid-format
    reply.  A call to set a user timezone, or a call to set a channel
    timezone by a caller who passes the admin check, with a name for which
    [gettz] returns [None] gets the invalid-timezone reply.  A call to set
    a channel timezone by a caller who fails the admin check gets the
    admin-only reply, whatever the name.  None of these calls changes the
    bot. *)
Theorem validation_errors_mutate_nothing ctx b :
  (forall t msg now, isascii t = true -> ~ matches_pattern (lower t) ->
     remind ctx t msg now b = Ret (b, REPLY_INVALID_TIME)) /\
  (forall tz, gettz tz = None -> mytz ctx tz b = (b, REPLY_INVALID_TZ)) /\
  (forall tz, gettz tz = None -> passes_admin_check ctx b ->
     settz ctx tz b = (b, REPLY_INVALID_TZ)) /\
  (forall tz, ~ passes_admin_check ctx b -> settz ctx tz b = (b, REPLY_ADMIN_ONLY)).
Proof.
  split; [|split; [|split]].
  - intros t msg now _ Hn. unfold remind, parse_simple_time.
    by rewrite re_match_duration_None.
  - intros tz Htz. unfold mytz. by rewrite Htz.
  - intros tz Htz Hadmin. destruct (settz_unknown ctx tz b Htz) as [Hb Hreply].
    specialize (Hreply Hadmin). destruct (settz ctx tz b) as [b' reply].
    cbn [fst snd] in *. by subst.
  - intros tz Hfail. unfold settz, passes_admin_check in *.
    destruct (String.eqb_spec (admin_role_id b) EmptyString) as [He|Hne];
      [by destruct Hfail; left|].
    destruct (bool_decide_reflect (admin_role_id b ∈ ctx_role_ids ctx)) as [Hin|Hnin];
      [by destruct Hfail; right|done].
Qed.

End Validation.

(** The claim fails twice: "10S" is not an integer followed by one of
    d, h, m, s, yet the reminder is stored; and a caller without the admin
    role who names an unknown timezone is told "Admin only.", not that the
    timezone is invalid. *)
Lemma validation_counterexample :
  (~ integer_and_unit "10S" /\
   exists b' reply,
     remind alice "10S" "tea" noon fresh_bot = Ret (b', reply) /\
     reply <> REPLY_INVALID_TIME /\
     reminders (db b') !! 1 =
       Some (mk_reminder "chan-1" "alice" "tea" "2026-11-04T12:00:10+00:00" None None "UTC")) /\
  (gettz "Mars/Phobos" = None /\
   settz alice "Mars/Phobos" guarded_bot = (guarded_bot, REPLY_ADMIN_ONLY) /\
   REPLY_ADMIN_ONLY <> REPLY_INVALID_TZ).
Proof.
  split.
  - split.
    + intros Hm%integer_and_unit_matches%matches_pattern_iff.
      by destruct Hm as [? [=]].
    + eexists _, _. split; [vm_compute; reflexivity|]. split; [discriminate|].
      vm_compute. reflexivity.
  - split; [reflexivity|]. split; [vm_compute; reflexivity|discriminate].
Qed.

Lemma validation_errors_mutate_nothing_witness :
  remind alice "10x" "tea" noon guarded_bot = Ret (guarded_bot, REPLY_INVALID_TIME) /\
  mytz alice "Mars/Phobos" guarded_bot = (guarded_bot, REPLY_INVALID_TZ) /\
  settz alice "Mars/Phobos" fresh_bot = (fresh_bot, REPLY_INVALID_TZ) /\
  settz alice "Mars/Phobos" guarded_bot = (guarded_bot, REPLY_ADMIN_ONLY) /\
  settz alice "Europe/Paris" guarded_bot = (guarded_bot, REPLY_ADMIN_ONLY).
Proof.
  destruct (validation_errors_mutate_nothing alice guarded_bot) as (Hr & Hm & _ & Ha).
  destruct (validation_errors_mutate_nothing alice fresh_bot) as (_ & _ & Hs & _).
  assert (Hfail : ~ passes_admin_check alice guarded_bot).
  { intros [He|Hin]; [discriminate He|].
    revert Hin. apply (bool_decide_unpack _). vm_compute. exact I. }
  split; [|split; [|split; [|split]]].
  - apply Hr; [reflexivity|]. intros Hp%matches_pattern_iff. by destruct Hp as [? [=]].
  - apply Hm. reflexivity.
  - apply Hs; [reflexivity|]. left. reflexivity.
  - by apply Ha.
  - by apply Ha.
Defined.

(** ** The scheduler *)

Lemma StronglySorted_sublist {A} (R : relation A) (l k : list A) :
  l `sublist_of` k -> StronglySorted R k -> StronglySorted R l.
Proof.
  induction 1 as [|x l k Hs IH|x l k Hs IH]; intros Hk.
  - constructor.
  - apply StronglySorted_inv in Hk as [Hk Hx]. constructor; [by apply IH|].
    rewrite Forall_forall in Hx |- *. intros y Hy. apply Hx.
    by eapply elem_of_sublist.
  - apply StronglySorted_inv in Hk as [Hk Hx]. by apply IH.
Qed.

Lemma StronglySorted_weaken {A} (R S : relation A) (l : list A) :
  (forall x y, x ∈ l -> y ∈ l -> R x y -> S x y) ->
  StronglySorted R l -> StronglySorted S l.
Proof.
  induction l as [|x l IH]; intros HRS Hl; [constructor|].
  apply StronglySorted_inv in Hl as [Hl Hx]. constructor.
  - apply IH; [|done]. intros y z Hy Hz. apply HRS; by apply elem_of_cons; right.
  - rewrite Forall_forall in Hx |- *. intros y Hy.
    apply HRS; [by left|by right|by apply Hx].
Qed.

#[local] Instance time_text_le_trans : Transitive time_text_le.
Proof. intros a b c. unfold time_text_le. apply transitivity. Qed.

#[local] Instance time_text_le_total : Total time_text_le.
Proof. intros a b. unfold time_text_le. apply total, _. Qed.

Lemma select_ordered_elem_of s rid r :
  (rid, r) ∈ select_ordered s <-> reminders s !! rid = Some r.
Proof.
  unfold select_ordered. rewrite merge_sort_Permutation.
  apply elem_of_map_to_list.
Qed.

Lemma select_ordered_NoDup s : NoDup (select_ordered s).*1.
Proof.
  unfold select_ordered. rewrite merge_sort_Permutation.
  apply NoDup_fst_map_to_list.
Qed.

Lemma select_ordered_sorted s : StronglySorted time_text_le (select_ordered s).
Proof. apply StronglySorted_merge_sort; apply _. Qed.

Lemma max_rowid_ge (t : gmap Z reminder) k :
  is_Some (t !! k) -> k <= max_rowid t.
Proof.
  unfold max_rowid. revert k.
  apply (map_fold_weak_ind (fun acc (m : gmap Z reminder) =>
           forall k, is_Some (m !! k) -> k <= acc)).
  - intros k [? Hk]. by rewrite lookup_empty in Hk.
  - intros i x m acc Hi IH k Hk.
    destruct (decide (i = k)) as [->|Hne]; [lia|].
    rewrite lookup_insert_ne in Hk by done. specialize (IH k Hk). lia.
Qed.

Section Scheduler.
  Context `{Dateutil}.

Lemma send_reminder_Ret row b d :
  isoparse (remind_time row.2) = Ret d -> send_reminder row b = Ret (deliver b row).
Proof.
  intros Hd. destruct row as [rid r]. unfold send_reminder, deliver, delivery_text.
  cbn [fst snd] in *. by rewrite Hd.
Qed.

Lemma scheduler_rows_fired now rows b :
  (scheduler_rows now rows b).1 = foldl deliver b (fired_rows now rows).
Proof.
  revert b. induction rows as [|row rows IH]; intros b; [done|].
  cbn [scheduler_rows fired_rows].
  destruct (isoparse (remind_time row.2)) as [d|e] eqn:Hd; [|done].
  destruct (dt_le d now); [|apply IH].
  rewrite (send_reminder_Ret _ _ _ Hd). cbn [foldl]. apply IH.
Qed.

Lemma fired_rows_sublist now rows : fired_rows now rows `sublist_of` rows.
Proof.
  induction rows as [|row rows IH]; [done|]. cbn [fired_rows].
  destruct (isoparse (remind_time row.2)) as [d|e].
  - destruct (dt_le d now); by constructor.
  - apply sublist_nil_l.
Qed.

(** The bot after a run of deliveries. *)
Lemma foldl_deliver b l :
  message_queue (foldl deliver b l) = message_queue b ++ map delivery_text l /\
  reminders (db (foldl deliver b l)) = foldl (fun m row => delete row.1 m) (reminders (db b)) l /\
  sequence (db (foldl deliver b l)) = sequence (db b) /\
  server_settings (db (foldl deliver b l)) = server_settings (db b) /\
  user_settings (db (foldl deliver b l)) = user_settings (db b) /\
  log (foldl deliver b l) = log b /\
  admin_role_id (foldl deliver b l) = admin_role_id b.
Proof.
  revert b. induction l as [|row l IH]; intros b.
  - cbn. by rewrite app_nil_r.
  - cbn [foldl map]. destruct (IH (deliver b row)) as (-> & -> & -> & -> & -> & -> & ->).
    cbn. by rewrite <- app_assoc.
Qed.

Lemma lookup_foldl_delete (m : gmap Z reminder) (l : list (Z * reminder)) k :
  foldl (fun m row => delete row.1 m) m l !! k
  = if decide (k ∈ l.*1) then None else m !! k.
Proof.
  revert m. induction l as [|row l IH]; intros m; cbn [foldl fmap list_fmap].
  - by rewrite decide_False by apply not_elem_of_nil.
  - rewrite IH. destruct (decide (k ∈ l.*1)) as [Hin|Hnin].
    + by rewrite decide_True by by right.
    + destruct (decide (k = row.1)) as [->|Hne].
      * rewrite lookup_delete_eq. by rewrite decide_True by by left.
      * rewrite lookup_delete_ne by done.
        rewrite decide_False; [done|]. by intros [?|?]%elem_of_cons.
Qed.

Lemma scheduler_tick_fired now b :
  let b' := scheduler_tick now b in
  message_queue b' = message_queue b ++ map delivery_text (dispatched now b) /\
  (forall k, reminders (db b') !! k
             = if decide (k ∈ (dispatched now b).*1) then None else reminders (db b) !! k) /\
  sequence (db b') = sequence (db b) /\
  server_settings (db b') = server_settings (db b) /\
  user_settings (db b') = user_settings (db b) /\
  admin_role_id b' = admin_role_id b.
Proof.
  cbn zeta. unfold scheduler_tick, dispatched.
  pose proof (scheduler_rows_fired now (select_ordered (db b)) b) as Hf.
  destruct (scheduler_rows now (select_ordered (db b)) b) as [b' [e|]];
    cbn [fst] in Hf; subst b';
    destruct (foldl_deliver b (fired_rows now (select_ordered (db b))))
      as (Hq & Hr & Hs & Hss & Hu & Hl & Ha); cbn [log_error message_queue db admin_role_id];
    rewrite Hq, Hr, Hs, Hss, Hu, Ha; repeat split; try done;
    intros k; apply lookup_foldl_delete.
Qed.

Lemma dispatched_stored now b row :
  row ∈ dispatched now b -> reminders (db b) !! row.1 = Some row.2.
Proof.
  intros Hin. destruct row as [rid r].
  apply select_ordered_elem_of. eapply elem_of_sublist; [exact Hin|].
  apply fired_rows_sublist.
Qed.

End Scheduler.

Section FireOnce.
  Context `{Dateutil}.

Lemma store_ok_lookup s :
  store_ok s <-> forall k, is_Some (reminders s !! k) -> k <= sequence s.
Proof.
  unfold store_ok. rewrite map_Forall_lookup. split.
  - intros Hs k [r Hk]. by eapply Hs.
  - intros Hs k r Hk. apply Hs. by eexists.
Qed.

Lemma remind_db ctx t m now b b' reply :
  remind ctx t m now b = Ret (b', reply) ->
  b' = b \/ exists r, b' = with_db b (insert_reminder r (db b)).2.
Proof.
  unfold remind. destruct (parse_simple_time t) as [[delta|]|e]; cbn [mbind outcome_bind].
  - destruct (negb (timedelta_bool delta)); [intros [= <- _]; by left|].
    destruct (dt_add now delta) as [d|e]; cbn [mbind outcome_bind]; [|done].
    destruct (get_tz_context _ _ _) as [tz_obj tz_name].
    destruct (insert_reminder _ _) as [rid db'] eqn:Hins.
    intros [= <- _]. right. eexists. by rewrite Hins.
  - intros [= <- _]; by left.
  - done.
Qed.

Lemma insert_reminder_retired r s rid :
  retired rid s -> retired rid (insert_reminder r s).2.
Proof.
  intros (Hgone & Hle & Hok). unfold insert_reminder, retired.
  rewrite store_ok_lookup in Hok |- *. cbn [snd reminders sequence].
  set (new := Z.max (sequence s) (max_rowid (reminders s)) + 1).
  assert (sequence s < new) by (unfold new; lia).
  split; [|split].
  - rewrite lookup_insert_ne by lia. done.
  - lia.
  - intros k Hk. destruct (decide (new = k)) as [<-|Hne]; [lia|].
    rewrite lookup_insert_ne in Hk by done. specialize (Hok k Hk). lia.
Qed.

Lemma apply_op_retired o b rid :
  retired rid (db b) -> retired rid (db (apply_op o b)).
Proof.
  intros Hr. destruct o as [ctx t m now|ctx tz|ctx tz|now]; cbn [apply_op].
  - destruct (remind ctx t m now b) as [[b' reply]|e] eqn:Hrem; [|done].
    apply remind_db in Hrem as [->|[r ->]]; [done|].
    by apply insert_reminder_retired.
  - unfold settz. destruct (_ && _); [done|]. by destruct (gettz tz).
  - unfold mytz. by destruct (gettz tz).
  - destruct Hr as (Hgone & Hle & Hok).
    destruct (scheduler_tick_fired now b) as (_ & Hrem & Hseq & _).
    unfold retired. rewrite store_ok_lookup in Hok |- *.
    rewrite Hseq. split; [|split; [done|]].
    + rewrite Hrem. by destruct (decide _).
    + intros k. rewrite Hrem. destruct (decide _); [by intros [? ?]|]. apply Hok.
Qed.

Lemma apply_ops_retired ops b rid :
  retired rid (db b) -> retired rid (db (apply_ops ops b)).
Proof.
  revert b. induction ops as [|o ops IH]; intros b Hr; [done|].
  cbn [apply_ops foldl]. apply IH. by apply apply_op_retired.
Qed.

(** C1. Fire-once.  For a reminder the scheduler dispatches in a tick:
    its text is enqueued and its row is deleted in that same tick, so the
    row is absent afterwards; whatever commands and ticks follow, no later
    tick dispatches that reminder again; and a row that the tick removed is
    one whose text the tick enqueued. *)
Theorem fire_once now b row :
  store_ok (db b) ->
  row ∈ dispatched now b ->
  let b' := scheduler_tick now b in
  message_queue b' = message_queue b ++ map delivery_text (dispatched now b) /\
  delivery_text row ∈ message_queue b' /\
  reminders (db b') !! row.1 = None /\
  (forall ops now', row.1 ∉ (dispatched now' (apply_ops ops b')).*1) /\
  (forall rid, is_Some (reminders (db b) !! rid) -> reminders (db b') !! rid = None ->
     exists r, (rid, r) ∈ dispatched now b /\ delivery_text (rid, r) ∈ message_queue b').
Proof.
  intros Hok Hin. cbn zeta. rewrite store_ok_lookup in Hok.
  destruct (scheduler_tick_fired now b) as (Hq & Hrem & Hseq & _).
  assert (Hgone : reminders (db (scheduler_tick now b)) !! row.1 = None).
  { rewrite Hrem. rewrite decide_True; [done|]. by apply list_elem_of_fmap_2. }
  split; [done|]. split.
  { rewrite Hq. apply elem_of_app. right. by apply list_elem_of_fmap_2. }
  split; [done|]. split.
  - intros ops now' Hagain.
    apply list_elem_of_fmap in Hagain as (row' & Heq & Hin').
    apply dispatched_stored in Hin'.
    assert (retired row.1 (db (scheduler_tick now b))) as Hr.
    { unfold retired. rewrite store_ok_lookup. rewrite Hseq. split; [done|]. split.
      - apply Hok. apply dispatched_stored in Hin. by rewrite Hin.
      - intros k. rewrite Hrem. destruct (decide _); [by intros [? ?]|]. apply Hok. }
    apply (apply_ops_retired ops) in Hr as [Hnone _].
    rewrite Heq in Hnone. by rewrite Hnone in Hin'.
  - intros rid [r Hr] Hdel. rewrite Hrem in Hdel.
    destruct (decide (rid ∈ (dispatched now b).*1)) as [Hd|Hnd]; [|congruence].
    apply list_elem_of_fmap in Hd as ([rid' r'] & Heq & Hin'). cbn in Heq. subst rid'.
    exists r'. split; [done|].
    rewrite Hq. apply elem_of_app. right. by apply list_elem_of_fmap_2.
Qed.

End FireOnce.

Section DueDetection.
  Context `{Dateutil}.

Lemma time_text_le_earlier x y : time_text_le x y -> earlier x y.
Proof.
  unfold time_text_le. intros Hle dx dy Hvx Hvy Hx Hy. rewrite Hx, Hy in Hle.
  apply isoformat_le_iff in Hle; auto using valid_fields_in_range.
Qed.

Lemma fired_rows_wf now rows :
  Forall (fun row => exists d, valid_datetime d = true /\ remind_time row.2 = isoformat d) rows ->
  forall row d, valid_datetime d = true -> remind_time row.2 = isoformat d ->
    row ∈ fired_rows now rows <-> row ∈ rows /\ dt_le d now = true.
Proof.
  induction 1 as [|row0 rows (d0 & Hv0 & Hd0) Hrows IH]; intros row d Hv Hd.
  - cbn. split; [by intros ?%elem_of_nil|by intros [?%elem_of_nil _]].
  - cbn [fired_rows]. rewrite Hd0, isoparse_isoformat by done.
    specialize (IH row d Hv Hd).
    destruct (dt_le d0 now) eqn:Hdue.
    + rewrite !elem_of_cons, IH. split.
      * intros [->|[? ?]]; [|by auto]. split; [by left|].
        rewrite Hd0 in Hd.
        assert (isoparse (isoformat d0) = isoparse (isoformat d)) as Heq by by rewrite Hd.
        rewrite !isoparse_isoformat in Heq by done. by injection Heq as <-.
      * intros [[->|?] ?]; auto.
    + rewrite elem_of_cons, IH. split; [by intros [? ?]; auto|].
      intros [[->|?] Hdn]; [|done].
      rewrite Hd0 in Hd.
      assert (isoparse (isoformat d0) = isoparse (isoformat d)) as Heq by by rewrite Hd.
      rewrite !isoparse_isoformat in Heq by done. injection Heq as <-. congruence.
Qed.

Lemma scheduler_rows_wf now rows b :
  Forall (fun row => exists d, valid_datetime d = true /\ remind_time row.2 = isoformat d) rows ->
  (scheduler_rows now rows b).2 = None.
Proof.
  intros Hrows. revert b.
  induction Hrows as [|row rows (d & Hv & Hd) Hrows IH]; intros b; [done|].
  cbn [scheduler_rows]. rewrite Hd, isoparse_isoformat by done.
  destruct (dt_le d now); [|apply IH].
  unfold send_reminder. destruct row as [rid r]. cbn [snd] in Hd.
  rewrite Hd, isoparse_isoformat by done. cbn [mbind outcome_bind]. apply IH.
Qed.

End DueDetection.

(** ** The calendar *)

Lemma days_before_year_decomp a b c e :
  0 <= a -> 0 <= b <= 3 -> 0 <= c <= 24 -> 0 <= e <= 3 ->
  days_before_year (400 * a + 100 * b + 4 * c + e + 1)
  = DI400Y * a + DI100Y * b + DI4Y * c + 365 * e.
Proof.
  intros Ha Hb Hc He. unfold days_before_year, DI400Y, DI100Y, DI4Y. cbn zeta.
  replace (400 * a + 100 * b + 4 * c + e + 1 - 1) with (400 * a + 100 * b + 4 * c + e) by lia.
  assert ((400 * a + 100 * b + 4 * c + e) / 4 = 100 * a + 25 * b + c) as ->
    by (symmetry; apply (Z.div_unique _ _ _ e); lia).
  assert ((400 * a + 100 * b + 4 * c + e) / 100 = 4 * a + b) as ->
    by (symmetry; apply (Z.div_unique _ _ _ (4 * c + e)); lia).
  assert ((400 * a + 100 * b + 4 * c + e) / 400 = a) as ->
    by (symmetry; apply (Z.div_unique _ _ _ (100 * b + 4 * c + e)); lia).
  lia.
Qed.

Lemma is_leap_decomp a b c e :
  0 <= a -> 0 <= b <= 3 -> 0 <= c <= 24 -> 0 <= e <= 3 ->
  is_leap (400 * a + 100 * b + 4 * c + e + 1)
  = (e =? 3) && (negb (c =? 24) || (b =? 3)).
Proof.
  intros Ha Hb Hc He. unfold is_leap.
  set (y := 400 * a + 100 * b + 4 * c + e + 1).
  assert (H4 : y mod 4 = (e + 1) mod 4).
  { unfold y. replace (400 * a + 100 * b + 4 * c + e + 1)
      with (e + 1 + (100 * a + 25 * b + c) * 4) by lia. apply Z.mod_add. lia. }
  assert (H100 : y mod 100 = (4 * c + e + 1) mod 100).
  { unfold y. replace (400 * a + 100 * b + 4 * c + e + 1)
      with (4 * c + e + 1 + (4 * a + b) * 100) by lia. apply Z.mod_add. lia. }
  assert (H400 : y mod 400 = (100 * b + 4 * c + e + 1) mod 400).
  { unfold y. replace (400 * a + 100 * b + 4 * c + e + 1)
      with (100 * b + 4 * c + e + 1 + a * 400) by lia. apply Z.mod_add. lia. }
  rewrite H4, H100, H400.
  destruct (Z.eqb_spec e 3) as [->|He3].
  - change ((3 + 1) mod 4) with 0. cbn [Z.eqb andb].
    destruct (Z.eqb_spec c 24) as [->|Hc24].
    + change ((4 * 24 + 3 + 1) mod 100) with 0. cbn [Z.eqb negb orb].
      replace (100 * b + 4 * 24 + 3 + 1) with (100 * (b + 1)) by lia.
      destruct (Z.eqb_spec b 3) as [->|Hb3]; [reflexivity|].
      apply Z.eqb_neq. intros Hm.
      apply Z.mod_divide in Hm as [k Hk]; lia.
    + assert ((4 * c + 3 + 1) mod 100 <> 0) as Hn.
      { rewrite Z.mod_small by lia. lia. }
      apply Z.eqb_neq in Hn. by rewrite Hn.
  - assert ((e + 1) mod 4 <> 0) as Hn.
    { rewrite Z.mod_small by lia. lia. }
    apply Z.eqb_neq in Hn. by rewrite Hn.
Qed.

Lemma month_day_ok_all leapyear n :
  0 <= n <= 364 -> month_day_ok leapyear n = true.
Proof.
  intros Hn.
  assert (Hall : forallb (fun k => month_day_ok true (Z.of_nat k)
                                   && month_day_ok false (Z.of_nat k)) (seq 0 365) = true)
    by (vm_compute; reflexivity).
  rewrite forallb_forall in Hall.
  specialize (Hall (Z.to_nat n)). rewrite Z2Nat.id in Hall by lia.
  destruct (andb_prop _ _ (Hall ltac:(apply in_seq; lia))) as [Ht Hf].
  by destruct leapyear.
Qed.

Lemma ord2ymd_unfold n :
  ord2ymd n =
  let a := (n - 1) / DI400Y in
  let b := (n - 1) mod DI400Y / DI100Y in
  let c := (n - 1) mod DI400Y mod DI100Y / DI4Y in
  let e := (n - 1) mod DI400Y mod DI100Y mod DI4Y / 365 in
  let r := (n - 1) mod DI400Y mod DI100Y mod DI4Y mod 365 in
  let y := a * 400 + 1 + b * 100 + c * 4 + e in
  if (e =? 4) || (b =? 4) then (y - 1, 12, 31)
  else let '(m, d) := month_day ((e =? 3) && (negb (c =? 24) || (b =? 3))) r in (y, m, d).
Proof.
  unfold ord2ymd, month_day. cbn zeta.
  destruct (_ || _); [reflexivity|]. by destruct (_ >? _).
Qed.

(** [_ord2ymd] inverts [_ymd2ord] and yields a date of the calendar. *)
Lemma ord2ymd_spec n :
  1 <= n ->
  let '(y, m, d) := ord2ymd n in
  ymd2ord y m d = n /\ 1 <= y /\ 1 <= m <= 12 /\ 1 <= d <= days_in_month y m /\
  (n <= MAXORDINAL -> y <= 9999).
Proof.
  intros Hn. rewrite ord2ymd_unfold. cbn zeta.
  pose proof (Z.div_mod (n - 1) DI400Y ltac:(done)) as E1.
  pose proof (Z.mod_pos_bound (n - 1) DI400Y ltac:(done)) as B1.
  set (a := (n - 1) / DI400Y) in *. set (r400 := (n - 1) mod DI400Y) in *.
  pose proof (Z.div_mod r400 DI100Y ltac:(done)) as E2.
  pose proof (Z.mod_pos_bound r400 DI100Y ltac:(done)) as B2.
  set (b := r400 / DI100Y) in *. set (r100 := r400 mod DI100Y) in *.
  pose proof (Z.div_mod r100 DI4Y ltac:(done)) as E3.
  pose proof (Z.mod_pos_bound r100 DI4Y ltac:(done)) as B3.
  set (c := r100 / DI4Y) in *. set (r4 := r100 mod DI4Y) in *.
  pose proof (Z.div_mod r4 365 ltac:(done)) as E4.
  pose proof (Z.mod_pos_bound r4 365 ltac:(done)) as B4.
  set (e := r4 / 365) in *. set (r := r4 mod 365) in *.
  unfold DI400Y, DI100Y, DI4Y, MAXORDINAL in *.
  assert (Ha : 0 <= a) by lia.
  assert (Hb : 0 <= b <= 4) by lia.
  assert (Hc : 0 <= c <= 24) by lia.
  assert (He : 0 <= e <= 4) by lia.
  destruct (Z.eqb_spec e 4) as [He4|He4]; cbn [orb].
  { (* the last day of a leap year that closes no century *)
    assert (Hc' : 0 <= c <= 23) by lia.
    replace (a * 400 + 1 + b * 100 + c * 4 + e - 1)
      with (400 * a + 100 * b + 4 * c + 3 + 1) by lia.
    assert (Hb' : 0 <= b <= 3) by lia.
    unfold ymd2ord, days_before_month, days_in_month.
    rewrite days_before_year_decomp, is_leap_decomp by lia.
    assert ((c =? 24) = false) as -> by (apply Z.eqb_neq; lia).
    unfold DI400Y, DI100Y, DI4Y. cbn. lia. }
  destruct (Z.eqb_spec b 4) as [Hb4|Hb4].
  { (* the last day of a 400-year cycle *)
    replace (a * 400 + 1 + b * 100 + c * 4 + e - 1)
      with (400 * a + 100 * 3 + 4 * 24 + 3 + 1) by lia.
    unfold ymd2ord, days_before_month, days_in_month.
    rewrite days_before_year_decomp, is_leap_decomp by lia.
    unfold DI400Y, DI100Y, DI4Y. cbn. lia. }
  replace (a * 400 + 1 + b * 100 + c * 4 + e)
    with (400 * a + 100 * b + 4 * c + e + 1) by lia.
  pose proof (month_day_ok_all ((e =? 3) && (negb (c =? 24) || (b =? 3))) r ltac:(lia)) as Hok.
  unfold month_day_ok in Hok.
  destruct (month_day _ r) as [m d].
  rewrite !andb_true_iff, !Z.leb_le, Z.eqb_eq in Hok.
  destruct Hok as ((((Hm1 & Hm2) & Hd1) & Hd2) & Hsum).
  unfold ymd2ord, days_before_month, days_in_month.
  rewrite days_before_year_decomp, is_leap_decomp by lia.
  unfold DI400Y, DI100Y, DI4Y.
  repeat split; try lia.
Qed.

(** ** Adding a duration to a datetime *)

Lemma dt_add_spec now delta d' :
  dt_add now delta = Ret d' ->
  valid_datetime d' = true /\ to_micros d' = to_micros now + delta.
Proof.
  unfold dt_add, mk_timedelta.
  set (T := to_micros now + delta).
  destruct (Z.abs (T / US_PER_DAY) <=? MAX_DELTA_DAYS); [|done].
  cbn [mbind outcome_bind].
  destruct ((0 <? T / US_PER_DAY) && (T / US_PER_DAY <=? MAXORDINAL)) eqn:Hrange; [|done].
  apply andb_prop in Hrange as [Hlo%Z.ltb_lt Hhi%Z.leb_le].
  pose proof (ord2ymd_spec (T / US_PER_DAY) ltac:(lia)) as Hord.
  destruct (ord2ymd (T / US_PER_DAY)) as [[y m] d].
  destruct Hord as (Hinv & Hy & Hm & Hd & Hy').
  intros [= <-]. specialize (Hy' Hhi).
  unfold US_PER_DAY, US_PER_HOUR, US_PER_MINUTE, US_PER_SECOND in *.
  change (24 * (60 * (60 * 1000000))) with 86400000000 in *.
  pose proof (Z.div_mod T 86400000000 ltac:(done)) as E1.
  pose proof (Z.mod_pos_bound T 86400000000 ltac:(done)) as B1.
  set (days := T / 86400000000) in *. set (rd := T mod 86400000000) in *.
  assert (Hus : T mod 1000000 = rd mod 1000000).
  { rewrite E1. rewrite Z.add_comm, Z.mul_comm.
    replace (days * 86400000000) with (days * 86400 * 1000000) by lia.
    apply Z.mod_add. done. }
  rewrite Hus.
  pose proof (Z.div_mod rd 1000000 ltac:(done)) as E2.
  pose proof (Z.mod_pos_bound rd 1000000 ltac:(done)) as B2.
  set (secs := rd / 1000000) in *. set (us := rd mod 1000000) in *.
  pose proof (Z.div_mod secs 3600 ltac:(done)) as E3.
  pose proof (Z.mod_pos_bound secs 3600 ltac:(done)) as B3.
  set (h := secs / 3600) in *. set (rem := secs mod 3600) in *.
  pose proof (Z.div_mod rem 60 ltac:(done)) as E4.
  pose proof (Z.mod_pos_bound rem 60 ltac:(done)) as B4.
  set (mi := rem / 60) in *. set (s := rem mod 60) in *.
  clearbody days rd us secs h rem mi s.
  split.
  - unfold valid_datetime. cbn [year month day hour minute second microsecond].
    rewrite !andb_true_iff, !Z.leb_le, !Z.ltb_lt. lia.
  - unfold to_micros. cbn [year month day hour minute second microsecond].
    rewrite Hinv. unfold US_PER_DAY, US_PER_HOUR, US_PER_MINUTE, US_PER_SECOND. lia.
Qed.

Lemma dt_add_representable now delta :
  representable now delta -> exists d', dt_add now delta = Ret d'.
Proof.
  unfold representable, dt_add, mk_timedelta.
  set (T := to_micros now + delta). intros [Hlo Hhi].
  assert (Hd : 1 <= T / US_PER_DAY <= MAXORDINAL).
  { split.
    - apply Z.div_le_lower_bound; [done|lia].
    - assert (T / US_PER_DAY < MAXORDINAL + 1); [|lia].
      apply Z.div_lt_upper_bound; [done|lia]. }
  assert ((Z.abs (T / US_PER_DAY) <=? MAX_DELTA_DAYS) = true) as ->.
  { apply Z.leb_le. unfold MAXORDINAL, MAX_DELTA_DAYS in *. lia. }
  cbn [mbind outcome_bind].
  assert (((0 <? T / US_PER_DAY) && (T / US_PER_DAY <=? MAXORDINAL)) = true) as ->.
  { rewrite andb_true_iff, Z.ltb_lt, Z.leb_le. lia. }
  destruct (ord2ymd _) as [[y m] d]. by eexists.
Qed.

(** ** Creating a reminder *)

Lemma insert_reminder_fresh r s :
  reminders s !! (insert_reminder r s).1 = None.
Proof.
  unfold insert_reminder. cbn [fst].
  destruct (reminders s !! _) as [r'|] eqn:Hk; [|done].
  pose proof (max_rowid_ge (reminders s) _ (mk_is_Some _ _ Hk)). lia.
Qed.

Lemma isoformat_suffix d :
  isoformat d
  = (zpad 4 (year d) +:+ "-" +:+ zpad 2 (month d) +:+ "-" +:+ zpad 2 (day d) +:+ "T" +:+
     zpad 2 (hour d) +:+ ":" +:+ zpad 2 (minute d) +:+ ":" +:+ zpad 2 (second d) +:+
     iso_fraction (microsecond d)) +:+ "+00:00".
Proof.
  unfold isoformat.
  assert (Hassoc : forall a b c : string, (a +:+ b) +:+ c = a +:+ (b +:+ c)).
  { intros a b c. induction a as [|x a IH]; [done|]. by rewrite !app_String, IH. }
  by rewrite !Hassoc.
Qed.

Lemma clear_of_ends_representable now delta :
  clear_of_ends now delta -> representable now delta.
Proof.
  unfold clear_of_ends, representable, US_PER_DAY, US_PER_HOUR, US_PER_MINUTE,
    US_PER_SECOND, MAXORDINAL. lia.
Qed.

Section Creation.
  Context `{Dateutil}.

(** C5, as the code has it.  For a duration text of at most 4300 digits
    and a unit letter, whose number is between 1 and 999999999 and whose
    sum with the call time falls on a day of the calendar other than its
    first (0001-01-01) and its last (9999-12-31), [remind] stores exactly
    one new row under a fresh id and changes nothing else; the row's time
    is the ISO-8601 text, ending in "+00:00", of the call time plus the
    duration, and reads back as that instant; its [original_tz] is the name
    the timezone resolution gives for the caller at that moment. *)
Theorem remind_persists ctx ds u msg now b :
  ds <> EmptyString -> all_digits ds = true -> is_unit (lower_char u) = true ->
  Z.of_nat (String.length ds) <= MAX_STR_DIGITS ->
  0 < int_of_digits ds <= MAX_DELTA_DAYS ->
  clear_of_ends now (int_of_digits ds * unit_micros (lower_char u)) ->
  exists rid d' reply,
    remind ctx (ds +:+ String u EmptyString) msg now b
    = Ret (with_db b
             (mk_store
                (<[rid := mk_reminder (ctx_channel ctx) (ctx_author ctx) msg (isoformat d')
                            None None
                            (get_tz_context (db b) (ctx_channel ctx) (ctx_author ctx)).2]>
                   (reminders (db b)))
                rid (server_settings (db b)) (user_settings (db b))),
           reply) /\
    reminders (db b) !! rid = None /\
    valid_datetime d' = true /\
    to_micros d' = to_micros now + int_of_digits ds * unit_micros (lower_char u) /\
    isoparse (isoformat d') = Ret d' /\
    (exists text, isoformat d' = text +:+ "+00:00").
Proof.
  intros Hne Hall Hu Hlen [Hv1 Hv2] Hrep%clear_of_ends_representable.
  destruct (dt_add_representable _ _ Hrep) as [d' Hadd].
  destruct (dt_add_spec _ _ _ Hadd) as [Hvalid Hmicros].
  pose proof (insert_reminder_fresh
    (mk_reminder (ctx_channel ctx) (ctx_author ctx) msg (isoformat d') None None
       (get_tz_context (db b) (ctx_channel ctx) (ctx_author ctx)).2) (db b)) as Hfresh.
  unfold remind. rewrite parse_simple_time_digits by done.
  assert ((MAX_STR_DIGITS <? Z.of_nat (String.length ds)) = false) as ->
    by by apply Z.ltb_ge.
  assert ((int_of_digits ds <=? MAX_DELTA_DAYS) = true) as -> by by apply Z.leb_le.
  cbn [mbind outcome_bind].
  assert (timedelta_bool (int_of_digits ds * unit_micros (lower_char u)) = true) as ->.
  { unfold timedelta_bool. apply negb_true_iff, Z.eqb_neq.
    assert (0 < unit_micros (lower_char u)).
    { unfold unit_micros. by repeat case_match. }
    nia. }
  cbn [negb]. rewrite Hadd. cbn [mbind outcome_bind].
  destruct (get_tz_context (db b) (ctx_channel ctx) (ctx_author ctx)) as [tz_obj tz_name].
  cbn [snd] in *. unfold insert_reminder in *. cbn [fst] in Hfresh.
  eexists _, d', _. split; [reflexivity|].
  split; [done|]. split; [done|]. split; [done|].
  split; [by apply isoparse_isoformat|].
  eexists. apply isoformat_suffix.
Qed.

End Creation.

(** Four duration texts of the documented form for which no record is
    stored: the sum overshoots the year 9999; the duration is zero and taken
    for a missing one; the number is too large for a count of days, although
    the unit is seconds; the number, ten, is written with more digits than
    [int] converts. *)
Lemma creation_counterexample :
  (integer_and_unit "3000000d" /\
   remind alice "3000000d" "tea" noon fresh_bot = Raise OverflowError) /\
  (integer_and_unit "0s" /\
   remind alice "0s" "tea" noon fresh_bot = Ret (fresh_bot, REPLY_INVALID_TIME)) /\
  (integer_and_unit "1000000000s" /\
   remind alice "1000000000s" "tea" noon fresh_bot = Raise OverflowError) /\
  (integer_and_unit (padded_ten +:+ "s") /\
   remind alice (padded_ten +:+ "s") "tea" noon fresh_bot = Raise ValueError).
Proof.
  repeat split; try (vm_compute; reflexivity).
  - by exists "3000000", "d"%char.
  - by exists "0", "s"%char.
  - by exists "1000000000", "s"%char.
  - exists padded_ten, "s"%char. split; [|split; [|split]]; by vm_compute.
Qed.

Lemma remind_persists_witness :
  exists rid d' reply,
    remind alice "10s" "tea" noon fresh_bot
    = Ret (with_db fresh_bot
             (mk_store
                (<[rid := mk_reminder "chan-1" "alice" "tea" (isoformat d') None None
                            (get_tz_context init_db "chan-1" "alice").2]> ∅)
                rid ∅ ∅),
           reply) /\
    (∅ : gmap Z reminder) !! rid = None /\
    valid_datetime d' = true /\
    to_micros d' = to_micros noon + 10 * US_PER_SECOND /\
    isoparse (isoformat d') = Ret d' /\
    (exists text, isoformat d' = text +:+ "+00:00").
Proof.
  apply (remind_persists alice "10" "s"%char "tea" noon fresh_bot).
  - discriminate.
  - reflexivity.
  - reflexivity.
  - vm_compute. discriminate.
  - vm_compute. split; [reflexivity|discriminate].
  - vm_compute. split; [discriminate|reflexivity].
Defined.

Example remind_10s_row :
  exists reply,
    remind alice "10s" "tea" noon fresh_bot
    = Ret (with_db fresh_bot
             (mk_store
                {[ 1 := mk_reminder "chan-1" "alice" "tea" "2026-11-04T12:00:10+00:00"
                          None None "UTC" ]}
                1 ∅ ∅), reply).
Proof. eexists. vm_compute. reflexivity. Qed.

(** ** What every reachable store satisfies *)

Section Reachable.
  Context `{Dateutil}.

Lemma init_db_ok : wf_store init_db /\ store_ok init_db.
Proof. split; apply map_Forall_empty. Qed.

Lemma remind_keeps_ok ctx t m now b b' reply :
  remind ctx t m now b = Ret (b', reply) ->
  wf_store (db b) -> store_ok (db b) ->
  wf_store (db b') /\ store_ok (db b').
Proof.
  unfold remind. destruct (parse_simple_time t) as [[delta|]|e]; cbn [mbind outcome_bind];
    [|by intros [= <- _]; split|done].
  destruct (negb (timedelta_bool delta)); [by intros [= <- _]; split|].
  destruct (dt_add now delta) as [d|e] eqn:Hadd; cbn [mbind outcome_bind]; [|done].
  apply dt_add_spec in Hadd as [Hvalid _].
  destruct (get_tz_context _ _ _) as [tz_obj tz_name].
  unfold insert_reminder. intros [= <- _] Hwf Hok. cbn [db with_db].
  split.
  - apply map_Forall_insert_2; [|done]. by exists d.
  - apply store_ok_lookup. rewrite store_ok_lookup in Hok. cbn [reminders sequence].
    intros k Hk. destruct (decide (Z.max (sequence (db b)) (max_rowid (reminders (db b))) + 1 = k))
      as [<-|Hne]; [lia|].
    rewrite lookup_insert_ne in Hk by done. specialize (Hok k Hk). lia.
Qed.

Lemma apply_op_keeps_ok o b :
  wf_store (db b) -> store_ok (db b) ->
  wf_store (db (apply_op o b)) /\ store_ok (db (apply_op o b)).
Proof.
  intros Hwf Hok. destruct o as [ctx t m now|ctx tz|ctx tz|now]; cbn [apply_op].
  - destruct (remind ctx t m now b) as [[b' reply]|e] eqn:Hrem; [|done].
    by eapply remind_keeps_ok.
  - unfold settz. destruct (_ && _); [by split|]. destruct (gettz tz); by split.
  - unfold mytz. destruct (gettz tz); by split.
  - destruct (scheduler_tick_fired now b) as (_ & Hrem & Hseq & _). split.
    + intros k r. rewrite Hrem. destruct (decide _); [done|]. apply Hwf.
    + apply store_ok_lookup. rewrite store_ok_lookup in Hok. rewrite Hseq.
      intros k. rewrite Hrem. destruct (decide _); [by intros [? ?]|]. apply Hok.
Qed.

Lemma apply_ops_keeps_ok ops b :
  wf_store (db b) -> store_ok (db b) ->
  wf_store (db (apply_ops ops b)) /\ store_ok (db (apply_ops ops b)).
Proof.
  revert b. induction ops as [|o ops IH]; intros b Hwf Hok; [by split|].
  cbn [apply_ops foldl]. by apply IH; apply apply_op_keeps_ok.
Qed.

(** Whatever commands and ticks the bot has gone through since it opened
    an empty database, its stored times are what [isoformat] wrote and no
    id exceeds the counter. *)
Lemma reachable_ok ops admin :
  let b := apply_ops ops (mk_bot init_db [] admin []) in
  wf_store (db b) /\ store_ok (db b).
Proof. cbn zeta. apply apply_ops_keeps_ok; apply init_db_ok. Qed.

End Reachable.

Example dispatched_at_noon : dispatched noon two_reminders = [(1, tea)].
Proof. vm_compute. reflexivity. Qed.

Lemma two_reminders_ok : wf_store (db two_reminders) /\ store_ok (db two_reminders).
Proof.
  split.
  - apply map_Forall_insert_2; [by exists (mk_datetime 2026 11 4 11 0 0 0)|].
    apply map_Forall_insert_2; [by exists (mk_datetime 2026 11 4 13 0 0 0)|].
    apply map_Forall_empty.
  - apply map_Forall_insert_2; [cbn; lia|].
    apply map_Forall_insert_2; [cbn; lia|]. apply map_Forall_empty.
Defined.

Lemma fire_once_witness :
  message_queue (scheduler_tick noon two_reminders)
    = map delivery_text (dispatched noon two_reminders) /\
  delivery_text (1, tea) ∈ message_queue (scheduler_tick noon two_reminders) /\
  reminders (db (scheduler_tick noon two_reminders)) !! 1 = None.
Proof.
  destruct (fire_once noon two_reminders (1, tea)) as (Hq & Hin & Hgone & _).
  - apply two_reminders_ok.
  - rewrite dispatched_at_noon. apply list_elem_of_here.
  - split; [exact Hq|]. split; [exact Hin|exact Hgone].
Defined.

Example tick_at_noon :
  message_queue (scheduler_tick noon two_reminders)
    = ["🔔 Reminder #1 for <@alice>: tea (2026-11-04 11:00:00 UTC)"] /\
  reminders (db (scheduler_tick noon two_reminders)) = <[2 := walk]> ∅.
Proof. split; vm_compute; reflexivity. Qed.

(** * Further properties *)

(** ** The order of datetimes is the order of instants *)

Lemma days_before_year_step y :
  days_before_year (y + 1) = days_before_year y + 365 + (if is_leap y then 1 else 0).
Proof.
  unfold days_before_year, is_leap. cbn zeta.
  replace (y + 1 - 1) with y by lia.
  destruct (Z.eqb_spec (y mod 4) 0) as [H4|H4];
    destruct (Z.eqb_spec (y mod 100) 0) as [H100|H100];
    destruct (Z.eqb_spec (y mod 400) 0) as [H400|H400];
    cbn [negb andb orb]; Z.div_mod_to_equations; lia.
Qed.

Lemma days_before_year_mono y1 y2 :
  y1 <= y2 -> days_before_year y1 <= days_before_year y2.
Proof.
  intros Hle. unfold days_before_year. cbn zeta. Z.div_mod_to_equations. lia.
Qed.

Lemma day_of_year_bounds y m d :
  1 <= m <= 12 -> 1 <= d <= days_in_month y m ->
  1 <= days_before_month y m + d <= 365 + (if is_leap y then 1 else 0).
Proof.
  intros Hm Hd. unfold days_before_month, days_in_month in *.
  assert (Hc : m = 1 \/ m = 2 \/ m = 3 \/ m = 4 \/ m = 5 \/ m = 6 \/ m = 7 \/ m = 8
               \/ m = 9 \/ m = 10 \/ m = 11 \/ m = 12) by lia.
  repeat destruct Hc as [-> | Hc]; try subst m;
    destruct (is_leap y); cbn in *; lia.
Qed.

Lemma days_before_month_next y m1 m2 d1 :
  1 <= m1 -> m1 < m2 -> m2 <= 12 -> d1 <= days_in_month y m1 ->
  days_before_month y m1 + d1 <= days_before_month y m2.
Proof.
  intros H1 H12 H2 Hd. unfold days_before_month, days_in_month in *.
  assert (Hc1 : m1 = 1 \/ m1 = 2 \/ m1 = 3 \/ m1 = 4 \/ m1 = 5 \/ m1 = 6 \/ m1 = 7
                \/ m1 = 8 \/ m1 = 9 \/ m1 = 10 \/ m1 = 11) by lia.
  assert (Hc2 : m2 = 2 \/ m2 = 3 \/ m2 = 4 \/ m2 = 5 \/ m2 = 6 \/ m2 = 7 \/ m2 = 8
                \/ m2 = 9 \/ m2 = 10 \/ m2 = 11 \/ m2 = 12) by lia.
  repeat destruct Hc1 as [-> | Hc1]; try subst m1;
    repeat destruct Hc2 as [-> | Hc2]; try subst m2;
    try lia; destruct (is_leap y); cbn in *; lia.
Qed.

Lemma ymd2ord_compare y1 m1 d1 y2 m2 d2 :
  1 <= m1 <= 12 -> 1 <= d1 <= days_in_month y1 m1 ->
  1 <= m2 <= 12 -> 1 <= d2 <= days_in_month y2 m2 ->
  (ymd2ord y1 m1 d1 ?= ymd2ord y2 m2 d2) = lex_compare [y1; m1; d1] [y2; m2; d2].
Proof.
  intros Hm1 Hd1 Hm2 Hd2. unfold ymd2ord. cbn [lex_compare].
  pose proof (day_of_year_bounds y1 m1 d1 Hm1 Hd1) as B1.
  pose proof (day_of_year_bounds y2 m2 d2 Hm2 Hd2) as B2.
  destruct (Z.compare_spec y1 y2) as [->|Hy|Hy].
  - destruct (Z.compare_spec m1 m2) as [->|Hm|Hm].
    + destruct (Z.compare_spec d1 d2) as [->|Hd|Hd].
      * apply Z.compare_refl.
      * apply Z.compare_lt_iff. lia.
      * apply Z.compare_gt_iff. lia.
    + apply Z.compare_lt_iff.
      pose proof (days_before_month_next y2 m1 m2 d1 ltac:(lia) Hm ltac:(lia) ltac:(lia)). lia.
    + apply Z.compare_gt_iff.
      pose proof (days_before_month_next y2 m2 m1 d2 ltac:(lia) Hm ltac:(lia) ltac:(lia)). lia.
  - apply Z.compare_lt_iff.
    pose proof (days_before_year_step y1). pose proof (days_before_year_mono (y1 + 1) y2 ltac:(lia)).
    lia.
  - apply Z.compare_gt_iff.
    pose proof (days_before_year_step y2). pose proof (days_before_year_mono (y2 + 1) y1 ltac:(lia)).
    lia.
Qed.

(** On datetimes of the calendar, comparing the fields left to right is
    comparing the instants. *)
Lemma dt_cmp_to_micros d1 d2 :
  valid_datetime d1 = true -> valid_datetime d2 = true ->
  dt_cmp d1 d2 = (to_micros d1 ?= to_micros d2).
Proof.
  unfold valid_datetime. intros V1 V2.
  rewrite !andb_true_iff, !Z.leb_le, !Z.ltb_lt in V1, V2.
  destruct d1 as [y1 m1 dd1 h1 mi1 s1 u1], d2 as [y2 m2 dd2 h2 mi2 s2 u2].
  cbn [year month day hour minute second microsecond] in *.
  pose proof (ymd2ord_compare y1 m1 dd1 y2 m2 dd2 ltac:(lia) ltac:(lia) ltac:(lia) ltac:(lia))
    as Hord.
  unfold dt_cmp, dt_fields, to_micros. cbn [year month day hour minute second microsecond].
  cbn [lex_compare] in *.
  unfold US_PER_DAY, US_PER_HOUR, US_PER_MINUTE, US_PER_SECOND.
  set (o1 := ymd2ord y1 m1 dd1) in *. set (o2 := ymd2ord y2 m2 dd2) in *.
  clearbody o1 o2. symmetry. revert Hord.
  destruct (Z.compare_spec y1 y2) as [Ey|Hy|Hy];
    [destruct (Z.compare_spec m1 m2) as [Em|Hm|Hm];
      [destruct (Z.compare_spec dd1 dd2) as [Ed|Hd|Hd]|..]|..];
    intros Hord;
    try (change (o1 < o2) in Hord; apply Z.compare_lt_iff; lia);
    try (apply Z.compare_gt_iff in Hord; apply Z.compare_gt_iff; lia).
  apply Z.compare_eq_iff in Hord.
  destruct (Z.compare_spec h1 h2) as [Eh|Hh|Hh];
    [destruct (Z.compare_spec mi1 mi2) as [Emi|Hmi|Hmi];
      [destruct (Z.compare_spec s1 s2) as [Es|Hs|Hs];
        [destruct (Z.compare_spec u1 u2) as [Eu|Hu|Hu]|..]|..]|..];
    first [apply Z.compare_eq_iff; lia | apply Z.compare_lt_iff; lia | apply Z.compare_gt_iff; lia].
Qed.

Lemma dt_le_to_micros d1 d2 :
  valid_datetime d1 = true -> valid_datetime d2 = true ->
  dt_le d1 d2 = true <-> to_micros d1 <= to_micros d2.
Proof.
  intros V1 V2. unfold dt_le. rewrite dt_cmp_to_micros by done.
  destruct (Z.compare_spec (to_micros d1) (to_micros d2)); split; intros; try done; lia.
Qed.

(** ** Due-detection *)

Section DueInstants.
Context `{Dateutil}.

Lemma time_text_le_no_later x y : time_text_le x y -> no_later x y.
Proof.
  intros Hle dx dy Hvx Hvy Hx Hy.
  apply dt_le_to_micros; [done..|]. by apply (time_text_le_earlier x y).
Qed.

(** C2. Due-detection.  In a store whose times are what the bot wrote, a
    tick at [now] dispatches a stored reminder exactly when the instant of
    its time, in microseconds, is at or before that of [now], and
    dispatches nothing that is not stored; it dispatches each such row
    once, the rows in ascending order of their instants; and the tick is
    nothing but these deliveries, one after the other. *)
Theorem due_detection now b :
  wf_store (db b) -> valid_datetime now = true ->
  (forall rid r d,
     reminders (db b) !! rid = Some r ->
     valid_datetime d = true -> remind_time r = isoformat d ->
     ((rid, r) ∈ dispatched now b <-> to_micros d <= to_micros now)) /\
  (forall row, row ∈ dispatched now b -> reminders (db b) !! row.1 = Some row.2) /\
  NoDup (dispatched now b).*1 /\
  StronglySorted no_later (dispatched now b) /\
  scheduler_tick now b = foldl deliver b (dispatched now b).
Proof.
  intros Hwf Hnow.
  assert (Hrows : Forall (fun row => exists d, valid_datetime d = true /\
                                      remind_time row.2 = isoformat d)
                         (select_ordered (db b))).
  { apply Forall_forall. intros [rid r] Hin%select_ordered_elem_of.
    by apply (Hwf rid r). }
  split; [|split; [|split; [|split]]].
  - intros rid r d Hr Hv Hd. unfold dispatched.
    rewrite (fired_rows_wf now _ Hrows (rid, r) d Hv Hd).
    rewrite select_ordered_elem_of, (dt_le_to_micros d now Hv Hnow). tauto.
  - intros row. apply dispatched_stored.
  - apply (sublist_NoDup _ (select_ordered (db b)).*1).
    + apply select_ordered_NoDup.
    + apply fmap_sublist, fired_rows_sublist.
  - eapply StronglySorted_weaken; [|eapply StronglySorted_sublist;
      [apply fired_rows_sublist|apply select_ordered_sorted]].
    intros x y _ _. apply time_text_le_no_later.
  - unfold scheduler_tick, dispatched.
    pose proof (scheduler_rows_fired now (select_ordered (db b)) b) as Hf.
    pose proof (scheduler_rows_wf now (select_ordered (db b)) b Hrows) as He.
    destruct (scheduler_rows now (select_ordered (db b)) b) as [b' e].
    cbn [fst snd] in *. by subst.
Qed.

End DueInstants.

Lemma due_detection_witness :
  (1, tea) ∈ dispatched noon two_reminders /\
  ((2, walk) ∉ dispatched noon two_reminders) /\
  NoDup (dispatched noon two_reminders).*1 /\
  scheduler_tick noon two_reminders = foldl deliver two_reminders (dispatched noon two_reminders).
Proof.
  destruct (due_detection noon two_reminders) as (Hdue & _ & Hnd & _ & Htick).
  - apply two_reminders_ok.
  - reflexivity.
  - split; [|split; [|split]].
    + apply (Hdue 1 tea (mk_datetime 2026 11 4 11 0 0 0)); [reflexivity..|].
      vm_compute. discriminate.
    + intros Hin.
      apply (Hdue 2 walk (mk_datetime 2026 11 4 13 0 0 0)) in Hin; [|reflexivity..].
      vm_compute in Hin. by apply Hin.
    + exact Hnd.
    + exact Htick.
Defined.

(** ** More on [parse_simple_time] and [remind] *)

Lemma re_match_duration_lower ds u rest :
  all_digits ds = true ->
  lower (ds +:+ String u rest) = ds +:+ String (lower_char u) (lower rest).
Proof. intros Hall. by rewrite lower_digits. Qed.

Lemma parse_simple_time_newline ds u :
  ds <> EmptyString -> all_digits ds = true -> is_unit (lower_char u) = true ->
  parse_simple_time (ds +:+ String u NEWLINE) = parse_simple_time (ds +:+ String u EmptyString).
Proof.
  intros Hne Hall Hu. unfold parse_simple_time.
  rewrite !re_match_duration_lower by done.
  change (lower NEWLINE) with NEWLINE. change (lower EmptyString) with EmptyString.
  by rewrite re_match_duration_newline, re_match_duration_plain.
Qed.

(** X1. What [parse_simple_time] does on digits followed by a unit letter
    of either case, with or without a final newline.  With more than 4300
    digits it raises ValueError, raised by [int].  Otherwise it returns the
    number times the unit when the number is at most 999999999, and raises
    OverflowError above that, whatever the unit, since the duration in days
    is built first. *)
Theorem parse_simple_time_value ds u :
  ds <> EmptyString -> all_digits ds = true -> is_unit (lower_char u) = true ->
  parse_simple_time (ds +:+ String u NEWLINE)
  = parse_simple_time (ds +:+ String u EmptyString) /\
  (MAX_STR_DIGITS < Z.of_nat (String.length ds) ->
     parse_simple_time (ds +:+ String u EmptyString) = Raise ValueError) /\
  (Z.of_nat (String.length ds) <= MAX_STR_DIGITS ->
   int_of_digits ds <= MAX_DELTA_DAYS ->
     parse_simple_time (ds +:+ String u EmptyString)
     = Ret (Some (int_of_digits ds * unit_micros (lower_char u)))) /\
  (Z.of_nat (String.length ds) <= MAX_STR_DIGITS ->
   MAX_DELTA_DAYS < int_of_digits ds ->
     parse_simple_time (ds +:+ String u EmptyString) = Raise OverflowError).
Proof.
  intros Hne Hall Hu.
  rewrite parse_simple_time_newline, parse_simple_time_digits by done.
  split; [done|]. split; [|split].
  - intros Hlong. by apply Z.ltb_lt in Hlong as ->.
  - intros Hlen Hv. apply Z.ltb_ge in Hlen as ->. by apply Z.leb_le in Hv as ->.
  - intros Hlen Hv. apply Z.ltb_ge in Hlen as ->. by apply Z.leb_gt in Hv as ->.
Qed.

Lemma parse_simple_time_value_witness :
  (parse_simple_time ("90M" +:+ NEWLINE) = parse_simple_time "90M" /\
   parse_simple_time "90M" = Ret (Some (90 * US_PER_MINUTE))) /\
  parse_simple_time "1000000000s" = Raise OverflowError /\
  parse_simple_time (padded_ten +:+ "s") = Raise ValueError.
Proof.
  pose proof (parse_simple_time_value "90" "M"%char
                ltac:(done) ltac:(reflexivity) ltac:(reflexivity)) as (Hnl & _ & Hok & _).
  pose proof (parse_simple_time_value "1000000000" "s"%char
                ltac:(done) ltac:(reflexivity) ltac:(reflexivity)) as (_ & _ & _ & Hbig).
  pose proof (parse_simple_time_value padded_ten "s"%char
                ltac:(by vm_compute) ltac:(by vm_compute) ltac:(reflexivity))
    as (_ & Hlong & _).
  split; [split; [exact Hnl|]|split].
  - apply Hok; vm_compute; discriminate.
  - apply Hbig; [vm_compute; discriminate|vm_compute; reflexivity].
  - apply Hlong. vm_compute. reflexivity.
Defined.

(** X2. On ASCII text, [parse_simple_time] returns [None], and does not
    raise, exactly on the texts that, once lowercased, are not one or more
    digits followed by one of d, h, m, s and at most one final newline. *)
Theorem parse_simple_time_None_iff t :
  isascii t = true ->
  (parse_simple_time t = Ret None <-> ~ matches_pattern (lower t)).
Proof.
  intros _. unfold parse_simple_time. split.
  - intros Hp Hm%matches_pattern_iff. destruct Hm as [[ds u] Hm]. rewrite Hm in Hp.
    destruct (int_of_text ds) as [v|]; [|done]. cbn [mbind outcome_bind] in Hp.
    destruct (timedelta_days _); [|done]. destruct (timedelta_hours _); [|done].
    destruct (timedelta_minutes _); [|done]. by destruct (timedelta_seconds _).
  - intros Hn. by rewrite re_match_duration_None.
Qed.

Lemma parse_simple_time_None_iff_witness :
  (parse_simple_time "10x" = Ret None <-> ~ matches_pattern (lower "10x")) /\
  (parse_simple_time "10 s" = Ret None <-> ~ matches_pattern (lower "10 s")) /\
  (parse_simple_time "10S" = Ret None <-> ~ matches_pattern (lower "10S")).
Proof.
  split; [|split]; by apply parse_simple_time_None_iff.
Defined.

Lemma dt_add_not_representable now delta :
  ~ representable now delta -> dt_add now delta = Raise OverflowError.
Proof.
  unfold representable, dt_add, mk_timedelta.
  set (T := to_micros now + delta). intros Hn.
  destruct (Z.abs (T / US_PER_DAY) <=? MAX_DELTA_DAYS); [|done].
  cbn [mbind outcome_bind].
  destruct ((0 <? T / US_PER_DAY) && (T / US_PER_DAY <=? MAXORDINAL)) eqn:Hr; [|done].
  apply andb_prop in Hr as [Hlo%Z.ltb_lt Hhi%Z.leb_le]. destruct Hn.
  unfold US_PER_DAY, US_PER_HOUR, US_PER_MINUTE, US_PER_SECOND, MAXORDINAL in *.
  Z.div_mod_to_equations. lia.
Qed.

Section RemindMore.
Context `{Dateutil}.

(** What [remind] does on a duration of at most 4300 digits and a unit
    letter whose number is between 1 and 999999999. *)
Lemma remind_unfold ctx ds u msg now b :
  ds <> EmptyString -> all_digits ds = true -> is_unit (lower_char u) = true ->
  Z.of_nat (String.length ds) <= MAX_STR_DIGITS ->
  0 < int_of_digits ds <= MAX_DELTA_DAYS ->
  remind ctx (ds +:+ String u EmptyString) msg now b
  = (remind_dt ← dt_add now (int_of_digits ds * unit_micros (lower_char u));
     let row := mk_reminder (ctx_channel ctx) (ctx_author ctx) msg (isoformat remind_dt)
                  None None
                  (get_tz_context (db b) (ctx_channel ctx) (ctx_author ctx)).2 in
     Ret (with_db b (insert_reminder row (db b)).2,
          "✅ Reminder #" +:+ pretty (insert_reminder row (db b)).1 +:+ " set for " +:+
          strftime_in (get_tz_context (db b) (ctx_channel ctx) (ctx_author ctx)).1 remind_dt)).
Proof.
  intros Hne Hall Hu Hlen [Hv1 Hv2]. unfold remind.
  rewrite parse_simple_time_digits by done.
  apply Z.ltb_ge in Hlen as ->.
  assert ((int_of_digits ds <=? MAX_DELTA_DAYS) = true) as -> by by apply Z.leb_le.
  cbn [mbind outcome_bind].
  assert (timedelta_bool (int_of_digits ds * unit_micros (lower_char u)) = true) as ->.
  { unfold timedelta_bool. apply negb_true_iff, Z.eqb_neq.
    assert (0 < unit_micros (lower_char u)).
    { unfold unit_micros. by repeat case_match. }
    nia. }
  cbn [negb]. destruct (dt_add _ _) as [d|e]; cbn [mbind outcome_bind]; [|done].
  by destruct (get_tz_context _ _ _) as [tz_obj tz_name].
Qed.

(** X3. A duration of at most 4300 digits whose number is zero ("0s",
    "00m", ...) is taken for a missing one: the caller gets the
    invalid-format reply and the bot is unchanged. *)
Theorem remind_zero_rejected ctx ds u msg now b :
  ds <> EmptyString -> all_digits ds = true -> is_unit (lower_char u) = true ->
  Z.of_nat (String.length ds) <= MAX_STR_DIGITS ->
  int_of_digits ds = 0 ->
  remind ctx (ds +:+ String u EmptyString) msg now b = Ret (b, REPLY_INVALID_TIME).
Proof.
  intros Hne Hall Hu Hlen Hz. unfold remind.
  rewrite parse_simple_time_digits by done.
  apply Z.ltb_ge in Hlen as ->. by rewrite Hz.
Qed.

(** X4. When [remind] raises before it stores.  On digits followed by a
    unit letter: with more than 4300 digits the call raises ValueError;
    with a number above 999999999 it raises OverflowError; with a number
    between 1 and 999999999 whose sum with the call time falls outside the
    years 1 to 9999 it raises OverflowError.  Each of these comes before the
    INSERT. *)
Theorem remind_raises_early ctx ds u msg now b :
  ds <> EmptyString -> all_digits ds = true -> is_unit (lower_char u) = true ->
  (MAX_STR_DIGITS < Z.of_nat (String.length ds) ->
     remind ctx (ds +:+ String u EmptyString) msg now b = Raise ValueError) /\
  (Z.of_nat (String.length ds) <= MAX_STR_DIGITS ->
   MAX_DELTA_DAYS < int_of_digits ds ->
     remind ctx (ds +:+ String u EmptyString) msg now b = Raise OverflowError) /\
  (Z.of_nat (String.length ds) <= MAX_STR_DIGITS ->
   0 < int_of_digits ds <= MAX_DELTA_DAYS ->
   ~ representable now (int_of_digits ds * unit_micros (lower_char u)) ->
     remind ctx (ds +:+ String u EmptyString) msg now b = Raise OverflowError).
Proof.
  intros Hne Hall Hu. split; [|split].
  - intros Hlong. unfold remind. rewrite parse_simple_time_digits by done.
    by apply Z.ltb_lt in Hlong as ->.
  - intros Hlen Hv. unfold remind. rewrite parse_simple_time_digits by done.
    apply Z.ltb_ge in Hlen as ->. by apply Z.leb_gt in Hv as ->.
  - intros Hlen Hv Hn. rewrite remind_unfold by done.
    by rewrite dt_add_not_representable.
Qed.

End RemindMore.

Lemma remind_zero_rejected_witness :
  remind alice "000m" "tea" noon guarded_bot = Ret (guarded_bot, REPLY_INVALID_TIME).
Proof.
  apply (remind_zero_rejected alice "000" "m"%char); first [done | by vm_compute].
Defined.

Lemma remind_raises_early_witness :
  remind alice (padded_ten +:+ "s") "tea" noon fresh_bot = Raise ValueError /\
  remind alice "1000000000s" "tea" noon fresh_bot = Raise OverflowError /\
  remind alice "3000000d" "tea" noon fresh_bot = Raise OverflowError.
Proof.
  pose proof (remind_raises_early alice padded_ten "s"%char "tea" noon fresh_bot
                ltac:(by vm_compute) ltac:(by vm_compute) ltac:(reflexivity))
    as (Hlong & _ & _).
  pose proof (remind_raises_early alice "1000000000" "s"%char "tea" noon fresh_bot
                ltac:(done) ltac:(reflexivity) ltac:(reflexivity)) as (_ & Hbig & _).
  pose proof (remind_raises_early alice "3000000" "d"%char "tea" noon fresh_bot
                ltac:(done) ltac:(reflexivity) ltac:(reflexivity)) as (_ & _ & Hfar).
  split; [|split].
  - apply Hlong. vm_compute. reflexivity.
  - apply Hbig; [vm_compute; discriminate|vm_compute; reflexivity].
  - apply Hfar.
    + vm_compute. discriminate.
    + vm_compute. split; [reflexivity|discriminate].
    + intros [_ Hhi]. vm_compute in Hhi. discriminate Hhi.
Defined.

(** ** More on the scheduler *)

Section SchedulerMore.
Context `{Dateutil}.

Lemma wf_row_parses (r : reminder) d :
  valid_datetime d = true -> remind_time r = isoformat d ->
  isoparse (remind_time r) = Ret d.
Proof. intros Hv ->. by apply isoparse_isoformat. Qed.

Lemma wf_store_rows s :
  wf_store s ->
  Forall (fun row => exists d, valid_datetime d = true /\ remind_time row.2 = isoformat d)
         (select_ordered s).
Proof.
  intros Hwf. apply Forall_forall. intros [rid r] Hin%select_ordered_elem_of.
  by apply (Hwf rid r).
Qed.

Lemma dispatched_wf_iff now b rid r d :
  wf_store (db b) -> reminders (db b) !! rid = Some r ->
  valid_datetime d = true -> remind_time r = isoformat d ->
  (rid, r) ∈ dispatched now b <-> dt_le d now = true.
Proof.
  intros Hwf Hr Hv Hd. unfold dispatched.
  rewrite (fired_rows_wf now _ (wf_store_rows _ Hwf) (rid, r) d Hv Hd).
  rewrite select_ordered_elem_of. tauto.
Qed.

(** X5. From creation to delivery.  A reminder created at call time [now]
    for a duration of at most 4300 digits and a unit letter, whose number
    is between 1 and 999999999 and whose sum with [now] is clear of the
    first and the last day of the calendar, is stored under a fresh id with
    the caller's channel, user and message, and a tick at time [t]
    dispatches it exactly when [t] is at or after [now] plus the duration,
    counted in microseconds. *)
Theorem reminder_fires_when_due ctx ds u msg now b :
  wf_store (db b) ->
  ds <> EmptyString -> all_digits ds = true -> is_unit (lower_char u) = true ->
  Z.of_nat (String.length ds) <= MAX_STR_DIGITS ->
  0 < int_of_digits ds <= MAX_DELTA_DAYS ->
  clear_of_ends now (int_of_digits ds * unit_micros (lower_char u)) ->
  exists rid row b' reply,
    remind ctx (ds +:+ String u EmptyString) msg now b = Ret (b', reply) /\
    reminders (db b) !! rid = None /\
    reminders (db b') !! rid = Some row /\
    channel_id row = ctx_channel ctx /\ user_id row = ctx_author ctx /\ message row = msg /\
    forall t, valid_datetime t = true ->
      ((rid, row) ∈ dispatched t b'
       <-> to_micros now + int_of_digits ds * unit_micros (lower_char u) <= to_micros t).
Proof.
  intros Hwf Hne Hall Hu Hlen Hv Hrep%clear_of_ends_representable.
  destruct (dt_add_representable _ _ Hrep) as [d' Hadd].
  destruct (dt_add_spec _ _ _ Hadd) as [Hvalid Hmicros].
  rewrite remind_unfold, Hadd by done. cbn [mbind outcome_bind].
  set (row := mk_reminder _ _ _ _ _ _ _).
  pose proof (insert_reminder_fresh row (db b)) as Hfresh.
  exists (insert_reminder row (db b)).1, row. eexists _, _.
  split; [reflexivity|]. split; [done|].
  assert (Hstored : reminders (db (with_db b (insert_reminder row (db b)).2))
                      !! (insert_reminder row (db b)).1 = Some row).
  { unfold insert_reminder. cbn. apply lookup_insert_eq. }
  split; [done|]. split; [done|]. split; [done|]. split; [done|].
  intros t Ht. rewrite <- Hmicros, <- dt_le_to_micros by done.
  apply dispatched_wf_iff; try done.
  unfold insert_reminder. cbn. apply map_Forall_insert_2; [|done]. by exists d'.
Qed.

(** X6. What a tick leaves alone.  Whatever the rows, a tick changes
    neither settings table, nor the AUTOINCREMENT counter, nor the admin
    role; it adds no row and alters none; it only appends to the queue; and
    it logs at most one error, under "[Scheduler]". *)
Theorem scheduler_tick_frame now b :
  let b' := scheduler_tick now b in
  server_settings (db b') = server_settings (db b) /\
  user_settings (db b') = user_settings (db b) /\
  sequence (db b') = sequence (db b) /\
  admin_role_id b' = admin_role_id b /\
  reminders (db b') ⊆ reminders (db b) /\
  message_queue b `prefix_of` message_queue b' /\
  (log b' = log b \/ exists e, log b' = log b ++ [("[Scheduler]", e)]).
Proof.
  cbn zeta.
  destruct (scheduler_tick_fired now b) as (Hq & Hrem & Hseq & Hss & Hus & Ha).
  split; [done|]. split; [done|]. split; [done|]. split; [done|].
  split; [|split].
  - apply map_subseteq_spec. intros k r. rewrite Hrem. by destruct (decide _).
  - rewrite Hq. by apply prefix_app_r.
  - unfold scheduler_tick.
    pose proof (scheduler_rows_fired now (select_ordered (db b)) b) as Hf.
    destruct (scheduler_rows now (select_ordered (db b)) b) as [b' [e|]];
      cbn [fst] in Hf; subst b';
      destruct (foldl_deliver b (fired_rows now (select_ordered (db b))))
        as (_ & _ & _ & _ & _ & Hl & _).
    + right. exists e. cbn. by rewrite Hl.
    + by left.
Qed.

Lemma fired_rows_app_raise now pre bad post e :
  Forall (fun row => exists d, isoparse (remind_time row.2) = Ret d) pre ->
  isoparse (remind_time bad.2) = Raise e ->
  fired_rows now (pre ++ bad :: post) = fired_rows now pre.
Proof.
  intros Hpre Hbad. induction Hpre as [|row pre [d Hd] Hpre IH].
  - cbn. by rewrite Hbad.
  - cbn [app fired_rows]. rewrite Hd, IH. done.
Qed.

Lemma scheduler_rows_app_raise now pre bad post e b :
  Forall (fun row => exists d, isoparse (remind_time row.2) = Ret d) pre ->
  isoparse (remind_time bad.2) = Raise e ->
  (scheduler_rows now (pre ++ bad :: post) b).2 = Some e.
Proof.
  intros Hpre Hbad. revert b. induction Hpre as [|row pre [d Hd] Hpre IH]; intros b.
  - cbn. by rewrite Hbad.
  - cbn [app scheduler_rows]. rewrite Hd.
    destruct (dt_le d now); [|apply IH].
    rewrite (send_reminder_Ret _ _ _ Hd). apply IH.
Qed.

(** X7. No isolation between rows.  When a row's stored time cannot be
    read, the tick stops there: it dispatches only the due rows that sort
    before it, logs the error, and leaves that row and every row sorted
    after it in the table, due or not. *)
Theorem unreadable_row_blocks now b pre bad post e :
  select_ordered (db b) = pre ++ bad :: post ->
  Forall (fun row => exists d, isoparse (remind_time row.2) = Ret d) pre ->
  isoparse (remind_time bad.2) = Raise e ->
  let b' := scheduler_tick now b in
  dispatched now b = fired_rows now pre /\
  log b' = log b ++ [("[Scheduler]", e)] /\
  (forall row, row ∈ bad :: post ->
     (row ∉ dispatched now b) /\ reminders (db b') !! row.1 = Some row.2).
Proof.
  intros Hsel Hpre Hbad. cbn zeta.
  assert (Hd : dispatched now b = fired_rows now pre).
  { unfold dispatched. rewrite Hsel. by eapply fired_rows_app_raise. }
  split; [done|]. split.
  - unfold scheduler_tick.
    pose proof (scheduler_rows_fired now (select_ordered (db b)) b) as Hf.
    pose proof (scheduler_rows_app_raise now pre bad post e b Hpre Hbad) as He.
    rewrite <- Hsel in He.
    destruct (scheduler_rows now (select_ordered (db b)) b) as [b' oe].
    cbn [fst snd] in *. subst.
    destruct (foldl_deliver b (fired_rows now (select_ordered (db b))))
      as (_ & _ & _ & _ & _ & Hl & _).
    cbn. by rewrite Hl.
  - intros row Hrow.
    pose proof (select_ordered_NoDup (db b)) as Hnd. rewrite Hsel in Hnd.
    rewrite fmap_app in Hnd. apply NoDup_app in Hnd as (_ & Hdisj & _).
    assert (Hout : row.1 ∉ (dispatched now b).*1).
    { intros Hin. rewrite Hd in Hin.
      apply list_elem_of_fmap in Hin as (row' & Heq & Hin').
      apply (Hdisj row.1).
      - rewrite Heq. apply list_elem_of_fmap_2.
        eapply elem_of_sublist; [exact Hin'|apply fired_rows_sublist].
      - by apply list_elem_of_fmap_2. }
    split.
    + intros Hin. apply Hout. by apply list_elem_of_fmap_2.
    + destruct (scheduler_tick_fired now b) as (_ & Hrem & _).
      rewrite Hrem, decide_False by done.
      destruct row as [rid r]. apply select_ordered_elem_of. rewrite Hsel.
      apply elem_of_app. by right.
Qed.

(** X8. A tick is idempotent.  In a store whose times are what the bot
    wrote, once a tick at [now] has run, a tick at the same or an earlier
    time dispatches nothing and leaves the bot as it is. *)
Theorem second_tick_is_idle now now' b :
  wf_store (db b) ->
  valid_datetime now = true -> valid_datetime now' = true ->
  dt_le now' now = true ->
  dispatched now' (scheduler_tick now b) = [] /\
  scheduler_tick now' (scheduler_tick now b) = scheduler_tick now b.
Proof.
  intros Hwf Hv Hv' Hle.
  destruct (scheduler_tick_fired now b) as (_ & Hrem & _).
  assert (Hwf' : wf_store (db (scheduler_tick now b))).
  { intros k r. rewrite Hrem. destruct (decide _); [done|]. apply Hwf. }
  assert (Hnone : dispatched now' (scheduler_tick now b) = []).
  { destruct (dispatched now' (scheduler_tick now b)) as [|[rid r] l] eqn:Hd; [done|].
    assert (Hin : (rid, r) ∈ dispatched now' (scheduler_tick now b))
      by (rewrite Hd; apply list_elem_of_here).
    pose proof (dispatched_stored _ _ _ Hin) as Hst. cbn [fst snd] in Hst.
    destruct (Hwf' rid r Hst) as (d & Hvd & Htime).
    apply (dispatched_wf_iff now' _ rid r d Hwf' Hst Hvd Htime) in Hin.
    rewrite Hrem in Hst. destruct (decide _) as [?|Hnot]; [done|]. destruct Hnot.
    apply (list_elem_of_fmap_2 fst _ (rid, r)).
    apply (dispatched_wf_iff now b rid r d Hwf Hst Hvd Htime).
    apply dt_le_to_micros in Hin; [|done..]. apply dt_le_to_micros in Hle; [|done..].
    apply dt_le_to_micros; [done..|]. lia. }
  split; [done|].
  unfold scheduler_tick at 1.
  pose proof (scheduler_rows_fired now' (select_ordered (db (scheduler_tick now b)))
                (scheduler_tick now b)) as Hf.
  pose proof (scheduler_rows_wf now' _ (scheduler_tick now b) (wf_store_rows _ Hwf')) as He.
  destruct (scheduler_rows now' _ (scheduler_tick now b)) as [b' oe].
  cbn [fst snd] in *. subst. unfold dispatched in Hnone. by rewrite Hnone.
Qed.

(** X9. One tick, one send.  When the queue is empty, every reminder a tick
    dispatches leaves in the next pass of the delivery loop, in a single
    call of [send] whose text is their delivery texts in the order of
    dispatch, joined by newlines, provided the clock moves no more than the
    burst window while the pass collects. *)
Theorem tick_then_pass now b clock res :
  message_queue b = [] ->
  dispatched now b <> [] ->
  (forall i, (1 <= i < length (dispatched now b))%nat ->
     clock i - clock O <= BURST_WINDOW * US_PER_SECOND) ->
  exists b' sleep,
    queue_worker_iter clock res (scheduler_tick now b)
    = (b', Some (String.concat NEWLINE (map delivery_text (dispatched now b))), sleep) /\
    message_queue b' = [].
Proof.
  intros Hq Hne Hclock.
  destruct (scheduler_tick_fired now b) as (Hq' & _).
  rewrite Hq in Hq'. cbn [app] in Hq'.
  destruct (dispatched now b) as [|row rows] eqn:Hd; [done|].
  apply (queue_worker_iter_takes_all clock res (scheduler_tick now b)
           (delivery_text row) (map delivery_text rows)); [done|].
  intros i Hi. apply Hclock. rewrite length_map in Hi. cbn [length]. lia.
Qed.

End SchedulerMore.

Example dispatched_in_the_afternoon :
  dispatched afternoon two_reminders = [(1, tea); (2, walk)].
Proof. vm_compute. reflexivity. Qed.

Lemma reminder_fires_when_due_witness :
  exists rid row b' reply,
    remind alice "10s" "tea" noon fresh_bot = Ret (b', reply) /\
    reminders (db fresh_bot) !! rid = None /\
    reminders (db b') !! rid = Some row /\
    channel_id row = "chan-1" /\ user_id row = "alice" /\ message row = "tea" /\
    forall t, valid_datetime t = true ->
      ((rid, row) ∈ dispatched t b' <-> to_micros noon + 10 * US_PER_SECOND <= to_micros t).
Proof.
  apply (reminder_fires_when_due alice "10" "s"%char "tea" noon fresh_bot).
  - apply map_Forall_empty.
  - discriminate.
  - reflexivity.
  - reflexivity.
  - vm_compute. discriminate.
  - vm_compute. split; [reflexivity|discriminate].
  - vm_compute. split; [discriminate|reflexivity].
Defined.

Lemma unreadable_row_blocks_witness :
  dispatched afternoon with_unset = [] /\
  log (scheduler_tick afternoon with_unset) = [("[Scheduler]", ValueError)] /\
  (forall row, row ∈ [(3, unset); (1, tea); (2, walk)] ->
     (row ∉ dispatched afternoon with_unset) /\
     reminders (db (scheduler_tick afternoon with_unset)) !! row.1 = Some row.2).
Proof.
  apply (unreadable_row_blocks afternoon with_unset [] (3, unset) [(1, tea); (2, walk)]
           ValueError).
  - vm_compute. reflexivity.
  - constructor.
  - reflexivity.
Defined.

Lemma second_tick_is_idle_witness :
  dispatched (mk_datetime 2026 11 4 11 30 0 0) (scheduler_tick noon two_reminders) = [] /\
  scheduler_tick (mk_datetime 2026 11 4 11 30 0 0) (scheduler_tick noon two_reminders)
    = scheduler_tick noon two_reminders.
Proof.
  apply second_tick_is_idle; [apply two_reminders_ok|reflexivity..].
Defined.

Lemma tick_then_pass_witness :
  exists b' sleep,
    queue_worker_iter (steady 0) SendOk (scheduler_tick afternoon two_reminders)
    = (b', Some (String.concat NEWLINE
                   (map delivery_text (dispatched afternoon two_reminders))), sleep) /\
    message_queue b' = [].
Proof.
  apply tick_then_pass.
  - reflexivity.
  - rewrite dispatched_in_the_afternoon. discriminate.
  - intros i Hi. rewrite dispatched_in_the_afternoon in Hi. cbn [length] in Hi.
    assert (i = 1%nat) as -> by lia. vm_compute. congruence.
Defined.

Example tick_then_pass_text :
  (queue_worker_iter (steady 0) SendOk (scheduler_tick afternoon two_reminders)).1.2
  = Some ("🔔 Reminder #1 for <@alice>: tea (2026-11-04 11:00:00 UTC)" +:+ NEWLINE +:+
          "🔔 Reminder #2 for <@bob>: walk (2026-11-04 14:00:00 CET)").
Proof. vm_compute. reflexivity. Qed.

(** ** More on the timezone commands *)

Section SettingsMore.
Context `{Dateutil}.

(** X10. Setting one's own timezone.  After [mytz] with a known name, the
    resolution for the caller gives that zone and name on every channel; the
    resolution for every other user, the reminders and the queue are as they
    were. *)
Theorem mytz_round_trip ctx tz z b :
  gettz tz = Some z ->
  let b' := (mytz ctx tz b).1 in
  (mytz ctx tz b).2 = "Your timezone set to " +:+ tz /\
  (forall cid, get_tz_context (db b') cid (ctx_author ctx) = (Some z, tz)) /\
  (forall cid uid, uid <> ctx_author ctx ->
     get_tz_context (db b') cid uid = get_tz_context (db b) cid uid) /\
  reminders (db b') = reminders (db b) /\
  sequence (db b') = sequence (db b) /\
  message_queue b' = message_queue b.
Proof.
  intros Hz. cbn zeta. unfold mytz. rewrite Hz. cbn [fst snd].
  split; [done|]. split; [|split; [|done]].
  - intros cid. unfold get_tz_context. cbn. by rewrite lookup_insert_eq, Hz.
  - intros cid uid Hne. unfold get_tz_context. cbn. by rewrite lookup_insert_ne.
Qed.

(** X11. Setting the channel's timezone.  After [settz] with a known name
    by a caller who passes the admin check, the resolution on that channel
    gives that zone and name to every user without a setting of their own;
    users with one keep theirs, other channels keep theirs, and the
    reminders and the queue are as they were. *)
Theorem settz_round_trip ctx tz z b :
  passes_admin_check ctx b ->
  gettz tz = Some z ->
  let b' := (settz ctx tz b).1 in
  (settz ctx tz b).2 = "Timezone set to " +:+ tz /\
  (forall uid, user_settings (db b) !! uid = None ->
     get_tz_context (db b') (ctx_channel ctx) uid = (Some z, tz)) /\
  (forall cid uid, is_Some (user_settings (db b) !! uid) ->
     get_tz_context (db b') cid uid = get_tz_context (db b) cid uid) /\
  (forall cid uid, cid <> ctx_channel ctx ->
     get_tz_context (db b') cid uid = get_tz_context (db b) cid uid) /\
  reminders (db b') = reminders (db b) /\
  sequence (db b') = sequence (db b) /\
  message_queue b' = message_queue b.
Proof.
  intros Hadmin Hz. cbn zeta. unfold settz.
  assert (negb (String.eqb (admin_role_id b) EmptyString)
          && negb (bool_decide (admin_role_id b ∈ ctx_role_ids ctx)) = false) as ->.
  { destruct Hadmin as [He|Hin].
    - rewrite He. reflexivity.
    - rewrite (bool_decide_eq_true_2 _ Hin). cbn. apply andb_false_r. }
  rewrite Hz. cbn [fst snd].
  split; [done|]. split; [|split; [|split; [|done]]].
  - intros uid Hu. unfold get_tz_context. cbn. by rewrite Hu, lookup_insert_eq, Hz.
  - intros cid uid [name Hu]. unfold get_tz_context. cbn. by rewrite Hu.
  - intros cid uid Hne. unfold get_tz_context. cbn. by rewrite lookup_insert_ne.
Qed.

(** When an admin role is configured and the caller does not hold it,
    [settz] changes nothing and answers "Admin only.", whether the timezone
    name is known or not. *)
Lemma settz_admin_only ctx tz b :
  admin_role_id b <> EmptyString ->
  admin_role_id b ∉ ctx_role_ids ctx ->
  settz ctx tz b = (b, REPLY_ADMIN_ONLY).
Proof.
  intros Hne Hnin. unfold settz.
  apply String.eqb_neq in Hne. rewrite Hne.
  by rewrite (bool_decide_eq_false_2 _ Hnin).
Qed.

Lemma apply_op_non_admin o b :
  admin_role_id b <> EmptyString ->
  by_non_admin (admin_role_id b) o ->
  server_settings (db (apply_op o b)) = server_settings (db b) /\
  admin_role_id (apply_op o b) = admin_role_id b.
Proof.
  intros Hne Ho. destruct o as [ctx t m now|ctx tz|ctx tz|now]; cbn [apply_op].
  - destruct (remind ctx t m now b) as [[b' reply]|e] eqn:Hrem; [|done].
    by apply remind_db in Hrem as [->|[r ->]].
  - by rewrite settz_admin_only.
  - unfold mytz. by destruct (gettz tz).
  - by destruct (scheduler_tick_fired now b) as (_ & _ & _ & Hss & _ & Ha).
Qed.

(** X12. The admin guard.  When an admin role is configured, no sequence of
    commands and ticks in which every [settz] comes from a caller without
    that role changes the timezone of any channel, whichever names are
    given; the configured role stays what it was. *)
Theorem channel_zone_needs_admin ops b :
  admin_role_id b <> EmptyString ->
  Forall (by_non_admin (admin_role_id b)) ops ->
  server_settings (db (apply_ops ops b)) = server_settings (db b) /\
  admin_role_id (apply_ops ops b) = admin_role_id b.
Proof.
  revert b. induction ops as [|o ops IH]; intros b Hne Hops; [done|].
  apply Forall_cons in Hops as [Ho Hops].
  destruct (apply_op_non_admin o b Hne Ho) as [Hss Ha].
  cbn [apply_ops foldl].
  destruct (IH (apply_op o b)) as [Hss' Ha'].
  - by rewrite Ha.
  - by rewrite Ha.
  - change (foldl (fun b0 o0 => apply_op o0 b0) (apply_op o b) ops)
      with (apply_ops ops (apply_op o b)).
    split; congruence.
Qed.

Lemma apply_op_settings_known o b :
  settings_known (db b) -> settings_known (db (apply_op o b)).
Proof.
  intros [Hu Hs]. destruct o as [ctx t m now|ctx tz|ctx tz|now]; cbn [apply_op].
  - destruct (remind ctx t m now b) as [[b' reply]|e] eqn:Hrem; [|by split].
    apply remind_db in Hrem as [->|[r ->]]; by split.
  - unfold settz. destruct (_ && _); [by split|].
    destruct (gettz tz) as [z|] eqn:Hz; [|by split].
    split; [done|]. cbn. apply map_Forall_insert_2; [|done]. by rewrite Hz.
  - unfold mytz. destruct (gettz tz) as [z|] eqn:Hz; [|by split].
    split; [|done]. cbn. apply map_Forall_insert_2; [|done]. by rewrite Hz.
  - destruct (scheduler_tick_fired now b) as (_ & _ & _ & Hss & Hus & _).
    unfold settings_known. by rewrite Hss, Hus.
Qed.

(** X13. Only known zones are ever stored.  Starting from an empty database
    and whatever commands and ticks follow, the resolution for any user on
    any channel gives a zone object, never the missing one: it is the
    default UTC, or the zone the timezone database has for the stored name,
    since the two commands that write a setting check the name first. *)
Theorem resolution_always_known ops admin cid uid :
  let b := apply_ops ops (mk_bot init_db [] admin []) in
  exists z, (get_tz_context (db b) cid uid).1 = Some z /\
            ((get_tz_context (db b) cid uid).2 = "UTC" /\ z = tz_UTC \/
             gettz (snd (get_tz_context (db b) cid uid)) = Some z).
Proof.
  cbn zeta.
  assert (Hinit : forall b0, settings_known (db b0) ->
            settings_known (db (apply_ops ops b0))).
  { induction ops as [|o ops IH]; intros b0 H0; [done|].
    cbn [apply_ops foldl]. apply IH. by apply apply_op_settings_known. }
  destruct (Hinit (mk_bot init_db [] admin [])) as [Hu Hs].
  { split; apply map_Forall_empty. }
  unfold get_tz_context.
  destruct (user_settings _ !! uid) as [name|] eqn:Hun.
  - destruct (Hu uid name Hun) as [z Hz]. exists z. cbn. rewrite Hz. auto.
  - destruct (server_settings _ !! cid) as [name|] eqn:Hsn.
    + destruct (Hs cid name Hsn) as [z Hz]. exists z. cbn. rewrite Hz. auto.
    + exists tz_UTC. cbn. auto.
Qed.

End SettingsMore.

Lemma mytz_round_trip_witness :
  (mytz alice "Europe/Paris" guarded_bot).2 = "Your timezone set to Europe/Paris" /\
  (forall cid, get_tz_context (db (mytz alice "Europe/Paris" guarded_bot).1) cid "alice"
               = (Some (60, "CET"), "Europe/Paris")) /\
  (forall cid uid, uid <> "alice" ->
     get_tz_context (db (mytz alice "Europe/Paris" guarded_bot).1) cid uid
     = get_tz_context (db guarded_bot) cid uid) /\
  reminders (db (mytz alice "Europe/Paris" guarded_bot).1) = reminders (db guarded_bot) /\
  sequence (db (mytz alice "Europe/Paris" guarded_bot).1) = sequence (db guarded_bot) /\
  message_queue (mytz alice "Europe/Paris" guarded_bot).1 = message_queue guarded_bot.
Proof.
  apply (@mytz_round_trip sample_dateutil alice "Europe/Paris" (60, "CET") guarded_bot). reflexivity.
Defined.

Lemma settz_round_trip_witness :
  (settz alice "Europe/Paris" fresh_bot).2 = "Timezone set to Europe/Paris" /\
  (forall uid, user_settings (db fresh_bot) !! uid = None ->
     get_tz_context (db (settz alice "Europe/Paris" fresh_bot).1) "chan-1" uid
     = (Some (60, "CET"), "Europe/Paris")) /\
  (forall cid uid, is_Some (user_settings (db fresh_bot) !! uid) ->
     get_tz_context (db (settz alice "Europe/Paris" fresh_bot).1) cid uid
     = get_tz_context (db fresh_bot) cid uid) /\
  (forall cid uid, cid <> "chan-1" ->
     get_tz_context (db (settz alice "Europe/Paris" fresh_bot).1) cid uid
     = get_tz_context (db fresh_bot) cid uid) /\
  reminders (db (settz alice "Europe/Paris" fresh_bot).1) = reminders (db fresh_bot) /\
  sequence (db (settz alice "Europe/Paris" fresh_bot).1) = sequence (db fresh_bot) /\
  message_queue (settz alice "Europe/Paris" fresh_bot).1 = message_queue fresh_bot.
Proof.
  apply (@settz_round_trip sample_dateutil alice "Europe/Paris" (60, "CET") fresh_bot).
  - left. reflexivity.
  - reflexivity.
Defined.

Lemma channel_zone_needs_admin_witness :
  server_settings
    (db (apply_ops [OpSettz alice "Europe/Paris"; OpMytz alice "Europe/Paris";
                    OpRemind alice "10s" "tea" noon; OpSettz alice "Mars/Phobos";
                    OpTick afternoon] guarded_bot))
  = server_settings (db guarded_bot) /\
  admin_role_id
    (apply_ops [OpSettz alice "Europe/Paris"; OpMytz alice "Europe/Paris";
                OpRemind alice "10s" "tea" noon; OpSettz alice "Mars/Phobos";
                OpTick afternoon] guarded_bot)
  = admin_role_id guarded_bot.
Proof.
  apply channel_zone_needs_admin.
  - discriminate.
  - repeat constructor; apply (bool_decide_unpack _); vm_compute; exact I.
Defined.

(** ** The confirmation and the delivery *)

Section Announce.
Context `{Dateutil}.

(** X14. A reminder is announced as it was confirmed.  For a duration of
    at most 4300 digits and a unit letter, whose number is between 1 and
    999999999 and whose sum with the call time is clear of the first and
    the last day of the calendar: when the zone found at creation is the
    one the stored name gives again at delivery, the reply of [remind] and
    the text [send_reminder] enqueues later carry the same id and the same
    local time, whatever the settings have become in between, since the
    zone name is stored with the reminder. *)
Theorem confirmation_matches_delivery ctx ds u msg now b z name :
  ds <> EmptyString -> all_digits ds = true -> is_unit (lower_char u) = true ->
  Z.of_nat (String.length ds) <= MAX_STR_DIGITS ->
  0 < int_of_digits ds <= MAX_DELTA_DAYS ->
  clear_of_ends now (int_of_digits ds * unit_micros (lower_char u)) ->
  get_tz_context (db b) (ctx_channel ctx) (ctx_author ctx) = (Some z, name) ->
  default tz_UTC (gettz name) = z ->
  exists rid row b' local,
    remind ctx (ds +:+ String u EmptyString) msg now b
    = Ret (b', "✅ Reminder #" +:+ pretty rid +:+ " set for " +:+ local) /\
    reminders (db b') !! rid = Some row /\
    delivery_text (rid, row)
    = "🔔 Reminder #" +:+ pretty rid +:+ " for <@" +:+ ctx_author ctx +:+ ">: " +:+
      msg +:+ " (" +:+ local +:+ ")".
Proof.
  intros Hne Hall Hu Hlen Hv Hrep%clear_of_ends_representable Htz Hz.
  destruct (dt_add_representable _ _ Hrep) as [d' Hadd].
  destruct (dt_add_spec _ _ _ Hadd) as [Hvalid Hmicros].
  rewrite remind_unfold, Hadd by done. cbn [mbind outcome_bind].
  rewrite Htz. cbn [fst snd].
  set (row := mk_reminder _ _ _ _ _ _ _).
  exists (insert_reminder row (db b)).1, row. eexists _, _.
  split; [reflexivity|]. split.
  - unfold insert_reminder. cbn. apply lookup_insert_eq.
  - unfold delivery_text, reminder_text. cbn [fst snd remind_time original_tz row user_id message].
    by rewrite (isoparse_isoformat _ Hvalid), Hz.
Qed.

End Announce.

Lemma confirmation_matches_delivery_witness :
  exists rid row b' local,
    remind alice "90M" "tea" noon (mk_bot sample_settings [] EmptyString [])
    = Ret (b', "✅ Reminder #" +:+ pretty rid +:+ " set for " +:+ local) /\
    reminders (db b') !! rid = Some row /\
    delivery_text (rid, row)
    = "🔔 Reminder #" +:+ pretty rid +:+ " for <@" +:+ "alice" +:+ ">: " +:+
      "tea" +:+ " (" +:+ local +:+ ")".
Proof.
  apply (@confirmation_matches_delivery sample_dateutil alice "90" "M"%char "tea" noon
           (mk_bot sample_settings [] EmptyString []) (-300, "EST") "America/New_York").
  - discriminate.
  - reflexivity.
  - reflexivity.
  - vm_compute. discriminate.
  - vm_compute. split; [reflexivity|discriminate].
  - vm_compute. split; [discriminate|reflexivity].
  - reflexivity.
  - reflexivity.
Defined.

(** ** More on the delivery loop *)

Lemma collect_window clock start k q batch rest :
  collect clock start k q = (batch, rest) ->
  (forall i, (k <= i < k + length batch - 1)%nat ->
     clock i - start <= BURST_WINDOW * US_PER_SECOND) /\
  (rest <> [] -> clock (k + length batch - 1)%nat - start > BURST_WINDOW * US_PER_SECOND).
Proof.
  revert k batch rest. induction q as [|x q IH]; intros k batch rest Hc; cbn [collect] in Hc.
  - inversion Hc; subst. split; [cbn; lia|done].
  - destruct (clock k - start >? BURST_WINDOW * US_PER_SECOND) eqn:Hk.
    + inversion Hc; subst. cbn [length]. split; [lia|].
      intros _. replace (k + 1 - 1)%nat with k by lia. lia.
    + destruct (collect clock start (S k) q) as [b' r'] eqn:Hq.
      inversion Hc; subst. destruct (IH _ _ _ Hq) as [Hin Hout].
      destruct q as [|y q].
      { cbn in Hq. inversion Hq; subst. split; [cbn; lia|done]. }
      destruct (collect_nonempty _ _ _ _ _ _ _ Hq) as [b'' ->].
      cbn [length] in *. split.
      * intros i Hi. destruct (decide (i = k)) as [->|Hne]; [lia|].
        apply Hin. lia.
      * intros Hr. specialize (Hout Hr).
        replace (k + S (S (length b'')) - 1)%nat with (S k + S (length b'') - 1)%nat by lia.
        done.
Qed.

(** X15. What one pass of the delivery loop takes.  With fragments waiting,
    the pass sends a non-empty prefix of the queue, joined by newlines, and
    leaves the rest in order.  Every clock reading before the last fragment
    taken was within the burst window, and fragments are left behind only
    when the reading after the last one taken was past it. *)
Theorem pass_takes_prefix clock res b :
  message_queue b <> [] ->
  exists batch,
    batch <> [] /\
    message_queue b = batch ++ message_queue (queue_worker_iter clock res b).1.1 /\
    (queue_worker_iter clock res b).1.2 = Some (String.concat NEWLINE batch) /\
    (forall i, (1 <= i < length batch)%nat ->
       clock i - clock O <= BURST_WINDOW * US_PER_SECOND) /\
    (message_queue (queue_worker_iter clock res b).1.1 <> [] ->
       clock (length batch) - clock O > BURST_WINDOW * US_PER_SECOND).
Proof.
  intros Hq. unfold queue_worker_iter.
  destruct (message_queue b) as [|x q] eqn:Hmq; [done|].
  destruct (collect clock (clock O) 1%nat (x :: q)) as [batch rest] eqn:Hc.
  pose proof (collect_split _ _ _ _ _ _ Hc) as Hsplit.
  destruct (collect_nonempty _ _ _ _ _ _ _ Hc) as [batch' ->].
  destruct (collect_window _ _ _ _ _ _ Hc) as [Hin Hout].
  exists (x :: batch').
  assert (Hlen : (1 + length (x :: batch') - 1)%nat = length (x :: batch')) by (cbn; lia).
  rewrite Hlen in Hout.
  destruct res; cbn [fst snd with_queue log_error message_queue];
    (split; [done|]); (split; [done|]); (split; [done|]);
    (split; [intros i Hi; apply Hin; cbn [length] in *; lia|done]).
Qed.

Lemma pass_takes_prefix_witness :
  exists batch,
    batch <> [] /\
    message_queue (r_bot loaded_run)
    = batch ++ message_queue (queue_worker_iter jumpy SendOk (r_bot loaded_run)).1.1 /\
    (queue_worker_iter jumpy SendOk (r_bot loaded_run)).1.2
    = Some (String.concat NEWLINE batch) /\
    (forall i, (1 <= i < length batch)%nat ->
       jumpy i - jumpy O <= BURST_WINDOW * US_PER_SECOND) /\
    (message_queue (queue_worker_iter jumpy SendOk (r_bot loaded_run)).1.1 <> [] ->
       jumpy (length batch) - jumpy O > BURST_WINDOW * US_PER_SECOND).
Proof.
  apply (pass_takes_prefix jumpy SendOk (r_bot loaded_run)). discriminate.
Defined.

Example pass_takes_prefix_sample :
  queue_worker_iter jumpy SendOk (r_bot loaded_run)
  = (mk_bot init_db ["c"; "d"] EmptyString [], Some ("a" +:+ NEWLINE +:+ "b"), 1000000).
Proof. reflexivity. Qed.

Lemma step_conserves ev r r' :
  step ev r = Some r' ->
  db (r_bot r') = db (r_bot r) /\
  exists batches,
    Forall (fun batch => batch <> []) batches /\
    (r_calls r').*2 = (r_calls r).*2 ++ map (String.concat NEWLINE) batches /\
    message_queue (r_bot r) ++ enqueued [ev] = concat batches ++ message_queue (r_bot r').
Proof.
  destruct ev as [t text|t clock t_send res t_done]; cbn [step].
  - destruct (r_time r <=? t); [|done]. intros [= <-]. cbn.
    split; [done|]. exists []. cbn. by rewrite app_nil_r.
  - destruct (_ && _); [|done]. unfold queue_worker_iter.
    destruct (message_queue (r_bot r)) as [|x q] eqn:Hq.
    + intros [= <-]. cbn. split; [done|]. exists []. cbn. by rewrite Hq, app_nil_r.
    + destruct (collect clock (clock O) 1%nat (x :: q)) as [batch rest] eqn:Hc.
      pose proof (collect_split _ _ _ _ _ _ Hc) as Hsplit.
      destruct (collect_nonempty _ _ _ _ _ _ _ Hc) as [batch' ->].
      destruct res; intros [= <-]; cbn; (split; [done|]);
        exists [x :: batch']; cbn; rewrite fmap_app; cbn;
        (split; [by repeat constructor|]); (split; [done|]);
        rewrite !app_nil_r; by inversion Hsplit.
Qed.

Lemma execute_conserves evs r r' :
  execute evs r = Some r' ->
  db (r_bot r') = db (r_bot r) /\
  exists batches,
    Forall (fun batch => batch <> []) batches /\
    (r_calls r').*2 = (r_calls r).*2 ++ map (String.concat NEWLINE) batches /\
    message_queue (r_bot r) ++ enqueued evs = concat batches ++ message_queue (r_bot r').
Proof.
  revert r. induction evs as [|ev evs IH]; intros r He; cbn [execute] in He.
  - inversion He; subst. split; [done|]. exists []. cbn. by rewrite !app_nil_r.
  - destruct (step ev r) as [r1|] eqn:Hs; [|done].
    destruct (step_conserves _ _ _ Hs) as (Hdb1 & bs1 & Hne1 & Hc1 & Hq1).
    destruct (IH _ He) as (Hdb2 & bs2 & Hne2 & Hc2 & Hq2).
    split; [congruence|]. exists (bs1 ++ bs2).
    split; [by apply Forall_app|]. split.
    + by rewrite Hc2, Hc1, map_app, app_assoc.
    + change (ev :: evs) with ([ev] ++ evs). unfold enqueued in *.
      rewrite flat_map_app, app_assoc, Hq1, <- app_assoc, Hq2, concat_app.
      by rewrite app_assoc.
Qed.

(** X16. Nothing is lost in the queue, nothing is sent twice.  In every run
    of the delivery loop from any queue, the fragments handed to [send] so
    far (each call a non-empty batch joined by newlines), followed by those
    still waiting, are the fragments that were in the queue at the start
    followed by those enqueued since, in that order; the run does not touch
    the database. *)
Theorem delivery_is_fifo evs b r :
  execute evs (start_run b) = Some r ->
  db (r_bot r) = db b /\
  exists batches,
    Forall (fun batch => batch <> []) batches /\
    (r_calls r).*2 = map (String.concat NEWLINE) batches /\
    concat batches ++ message_queue (r_bot r) = message_queue b ++ enqueued evs.
Proof.
  intros He. destruct (execute_conserves _ _ _ He) as (Hdb & bs & Hne & Hc & Hq).
  split; [done|]. exists bs. by repeat split.
Qed.

Lemma delivery_is_fifo_witness :
  exists r,
    execute split_burst (start_run fresh_bot) = Some r /\
    db (r_bot r) = db fresh_bot /\
    exists batches,
      Forall (fun batch => batch <> []) batches /\
      (r_calls r).*2 = map (String.concat NEWLINE) batches /\
      concat batches ++ message_queue (r_bot r)
      = message_queue fresh_bot ++ enqueued split_burst.
Proof.
  eexists. split; [reflexivity|].
  apply (delivery_is_fifo split_burst fresh_bot). reflexivity.
Defined.

(** ** More on what the bot reaches *)

Section ReachableMore.
Context `{Dateutil}.

Lemma scheduler_tick_wf_log now b :
  wf_store (db b) -> log (scheduler_tick now b) = log b.
Proof.
  intros Hwf. unfold scheduler_tick.
  pose proof (scheduler_rows_wf now _ b (wf_store_rows _ Hwf)) as Hnone.
  pose proof (scheduler_rows_fired now (select_ordered (db b)) b) as Hf.
  destruct (scheduler_rows now (select_ordered (db b)) b) as [b' [e|]];
    cbn [fst snd] in *; [done|]. subst b'.
  by destruct (foldl_deliver b (fired_rows now (select_ordered (db b))))
    as (_ & _ & _ & _ & _ & Hl & _).
Qed.

Lemma apply_op_wf_log o b :
  wf_store (db b) -> log (apply_op o b) = log b.
Proof.
  intros Hwf. destruct o as [ctx t m now|ctx tz|ctx tz|now]; cbn [apply_op].
  - destruct (remind ctx t m now b) as [[b' reply]|e] eqn:Hrem; [|done].
    by apply remind_db in Hrem as [->|[r ->]].
  - unfold settz. destruct (_ && _); [done|]. by destruct (gettz tz).
  - unfold mytz. by destruct (gettz tz).
  - by apply scheduler_tick_wf_log.
Qed.

Lemma apply_ops_wf_log ops b :
  wf_store (db b) -> store_ok (db b) -> log (apply_ops ops b) = log b.
Proof.
  revert b. induction ops as [|o ops IH]; intros b Hwf Hok; [done|].
  cbn [apply_ops foldl].
  destruct (apply_op_keeps_ok o b Hwf Hok) as [Hwf' Hok'].
  change (log (apply_ops ops (apply_op o b)) = log b).
  by rewrite IH, apply_op_wf_log.
Qed.

(** X17. The scheduler's error branch stays unused.  Starting from an empty
    database, whatever commands and ticks follow, no tick logs an error:
    every stored time is one [remind] wrote, and [isoparse] reads it back. *)
Theorem scheduler_never_logs ops admin :
  log (apply_ops ops (mk_bot init_db [] admin [])) = [].
Proof.
  destruct init_db_ok as [Hwf Hok]. by rewrite apply_ops_wf_log.
Qed.

Lemma apply_op_sequence o b :
  sequence (db b) <= sequence (db (apply_op o b)).
Proof.
  destruct o as [ctx t m now|ctx tz|ctx tz|now]; cbn [apply_op].
  - destruct (remind ctx t m now b) as [[b' reply]|e] eqn:Hrem; [|done].
    apply remind_db in Hrem as [->|[r ->]]; [done|].
    unfold insert_reminder. cbn. lia.
  - unfold settz. destruct (_ && _); [done|]. by destruct (gettz tz).
  - unfold mytz. by destruct (gettz tz).
  - destruct (scheduler_tick_fired now b) as (_ & _ & Hseq & _). by rewrite Hseq.
Qed.

Lemma apply_ops_sequence ops b :
  sequence (db b) <= sequence (db (apply_ops ops b)).
Proof.
  revert b. induction ops as [|o ops IH]; intros b; [done|].
  cbn [apply_ops foldl]. etrans; [apply (apply_op_sequence o)|apply IH].
Qed.

Lemma remind_new_id ctx t m now b b' reply rid :
  remind ctx t m now b = Ret (b', reply) ->
  reminders (db b) !! rid = None -> is_Some (reminders (db b') !! rid) ->
  sequence (db b) < rid /\ sequence (db b') = rid.
Proof.
  intros Hrem Hold Hnew. apply remind_db in Hrem as [->|[r ->]].
  - rewrite Hold in Hnew. by destruct Hnew.
  - revert Hnew. unfold insert_reminder. cbn.
    set (new := Z.max _ _ + 1). intros Hnew.
    destruct (decide (new = rid)) as [<-|Hne].
    + split; [unfold new; lia|done].
    + rewrite lookup_insert_ne, Hold in Hnew by done. by destruct Hnew.
Qed.

(** X18. Ids follow the order of creation.  The id of a reminder created
    later is larger than the id of one created earlier, whatever commands
    and ticks came in between, also when the earlier reminder has fired and
    its row is gone. *)
Theorem ids_follow_creation ctx1 t1 m1 now1 ctx2 t2 m2 now2 ops b b1 reply1 b2 reply2 rid1 rid2 :
  remind ctx1 t1 m1 now1 b = Ret (b1, reply1) ->
  reminders (db b) !! rid1 = None -> is_Some (reminders (db b1) !! rid1) ->
  remind ctx2 t2 m2 now2 (apply_ops ops b1) = Ret (b2, reply2) ->
  reminders (db (apply_ops ops b1)) !! rid2 = None -> is_Some (reminders (db b2) !! rid2) ->
  rid1 < rid2.
Proof.
  intros Hr1 Ho1 Hn1 Hr2 Ho2 Hn2.
  destruct (remind_new_id _ _ _ _ _ _ _ _ Hr1 Ho1 Hn1) as [_ Hs1].
  destruct (remind_new_id _ _ _ _ _ _ _ _ Hr2 Ho2 Hn2) as [Hs2 _].
  pose proof (apply_ops_sequence ops b1). lia.
Qed.

End ReachableMore.

Lemma ids_follow_creation_witness :
  exists b1 reply1 b2 reply2,
    remind alice "10s" "tea" noon fresh_bot = Ret (b1, reply1) /\
    reminders (db b1) !! 1 = Some (mk_reminder "chan-1" "alice" "tea"
                                     "2026-11-04T12:00:10+00:00" None None "UTC") /\
    reminders (db (apply_ops [OpTick afternoon] b1)) = ∅ /\
    remind alice "5m" "walk" afternoon (apply_ops [OpTick afternoon] b1) = Ret (b2, reply2) /\
    is_Some (reminders (db b2) !! 2) /\
    1 < 2.
Proof.
  eexists _, _, _, _.
  split; [vm_compute; reflexivity|]. split; [reflexivity|]. split; [reflexivity|].
  split; [vm_compute; reflexivity|]. split; [by eexists|].
  eapply (@ids_follow_creation sample_dateutil alice "10s" "tea" noon alice "5m" "walk"
            afternoon [OpTick afternoon] fresh_bot _ _ _ _ 1 2).
  - vm_compute. reflexivity.
  - reflexivity.
  - by eexists.
  - vm_compute. reflexivity.
  - reflexivity.
  - by eexists.
Defined.
